(** * milvus: the vector-store adapter of gptbot, embedded in Rocq

    The Go package [milvus] (milvus.go) wraps the Milvus SDK client: it
    provisions a collection, bulk-inserts sections, and reshapes search
    results.  The embedding below follows the source function by function.

    - Go values of type [int], [int64] are [Z]; [string] is [string];
      [float64] and [float32] are IEEE values ([spec_float]).
    - Pointers (to [Config], to [Milvus]) are addresses into a heap held in the
      [World]; dereferencing an address the heap does not map is Go's nil
      dereference and panics.
    - Every call that leaves the process (the SDK client, [os.ReadFile]) is
      appended to the world's log together with the error it answered; the
      answers come from an environment [Env] that may depend on the whole
      history of calls. *)

From Stdlib Require Import ZArith List Lia Bool.
From Stdlib Require Import Floats.SpecFloat DecimalString.
From stdpp Require Import gmap strings list.

Open Scope string_scope.
Open Scope Z_scope.

(** ** Go basics *)

(** A Go [error] value; [None] in an [option error] is Go's nil error. *)
Definition error := string.

Definition float64 := spec_float.
Definition float32 := spec_float.

(** Go's conversion [float32(f)] of a float64: round to nearest, ties to
    even, into binary32 (24-bit significand, emax 128). *)
Definition float32_of_float64 (f : float64) : float32 :=
  match f with
  | S754_finite s m e => binary_round 24 128 s m e
  | _ => f
  end.

(** Go's conversion [float64(f)] of a float32: every binary32 value is a
    binary64 value, the conversion is exact. *)
Definition float64_of_float32 (f : float32) : float64 := f.

(** Two's-complement reduction of an integer to [bits] bits. *)
Definition wrap (bits : Z) (x : Z) : Z :=
  let m := 2 ^ bits in
  let r := x mod m in
  if r <? 2 ^ (bits - 1) then r else r - m.

(** [fmt.Sprintf("%d", n)]. *)
Definition Sprintf_d (n : Z) : string := NilZero.string_of_int (Z.to_int n).

Inductive PanicKind :=
| NilDereference
| IndexOutOfRange.

(** What running a piece of Go code gives: a value, or a run-time panic. *)
Inductive Outcome (A : Type) :=
| Done (a : A)
| Panic (p : PanicKind).
Arguments Done {A} a.
Arguments Panic {A} p.

Definition obind {A B} (o : Outcome A) (k : A -> Outcome B) : Outcome B :=
  match o with
  | Done a => k a
  | Panic p => Panic p
  end.

(** [s[i]] on a Go slice: a panic outside [0, len(s)). *)
Definition index {A} (s : list A) (i : Z) : Outcome A :=
  if (i <? 0) || (Z.of_nat (length s) <=? i) then Panic IndexOutOfRange
  else match s !! Z.to_nat i with
       | Some a => Done a
       | None => Panic IndexOutOfRange
       end.

(** ** package xslices *)
Module xslices.

(** [xslices.Float64ToNumber[float32]]: converts each element with
    [float32(f)], keeping the order. *)
Definition Float64ToNumber (fs : list float64) : list float32 :=
  map float32_of_float64 fs.

End xslices.

(** ** package gptbot *)
Module gptbot.

Definition Embedding := list float64.

(** Modelled from the spec: the struct [gptbot.Section] is declared in the
    root package, which is not under src/; the spec describes it as the
    document model "(title, heading, content, embedding vector)", and
    milvus.go reads exactly these four fields. *)
Record Section := {
  Title : string;
  Heading : string;
  Content : string;
  Embedding_ : Embedding
}.

(** Modelled from the spec: the struct [gptbot.Similarity] is declared in
    the root package, which is not under src/; the spec describes it as a
    "(section, id, score)" record, and milvus.go fills its embedded
    [Section], its [ID] (an int) and its [Score] (a float64). *)
Record Similarity := {
  Section_ : Section;
  ID : Z;
  Score : float64
}.

End gptbot.

(** ** package entity (Milvus SDK): the values milvus.go builds and reads *)
Module entity.

Inductive MetricType := L2 | IP | HAMMING | JACCARD.

Inductive FieldType :=
| FieldTypeInt64
| FieldTypeVarChar
| FieldTypeFloatVector.

Inductive ConsistencyLevel := ClStrong | ClSession | ClBounded | ClEventually.

Definition TypeParamMaxLength : string := "max_length".
Definition TypeParamDim : string := "dim".

Record Field := {
  Name : string;
  DataType : FieldType;
  PrimaryKey : bool;
  AutoID : bool;
  TypeParams : gmap string string
}.

Record Schema := {
  CollectionName : string;
  SchemaAutoID : bool;
  Fields : list Field
}.

Record ColumnInt64 := { i64_name : string; i64_values : list Z }.
Record ColumnVarChar := { vc_name : string; vc_values : list string }.
Record ColumnFloatVector := {
  fv_name : string;
  fv_dim : Z;
  fv_values : list (list float32)
}.

(** The interface [entity.Column] with the implementations milvus.go
    names; a type assertion to the pointer type of [ColumnInt64] is a match on the
    constructor. *)
Inductive Column :=
| OfInt64 (c : ColumnInt64)
| OfVarChar (c : ColumnVarChar)
| OfFloatVector (c : ColumnFloatVector).

Definition Column_Name (c : Column) : string :=
  match c with
  | OfInt64 c => i64_name c
  | OfVarChar c => vc_name c
  | OfFloatVector c => fv_name c
  end.

Definition NewColumnInt64 (name : string) (values : list Z) : Column :=
  OfInt64 {| i64_name := name; i64_values := values |}.
Definition NewColumnVarChar (name : string) (values : list string) : Column :=
  OfVarChar {| vc_name := name; vc_values := values |}.
Definition NewColumnFloatVector (name : string) (dim : Z)
    (values : list (list float32)) : Column :=
  OfFloatVector {| fv_name := name; fv_dim := dim; fv_values := values |}.

(** Modelled from the spec: the SDK method [ValueByIdx] of [ColumnInt64]
    is not under src/.  Its receiver is a pointer: on a nil receiver the
    lookup dereferences nil (a panic); an index outside the column's values
    takes the error branch; otherwise the value at the index is returned
    with a nil error. *)
Definition ColumnInt64_ValueByIdx (c : option ColumnInt64) (idx : Z)
    : Outcome (Z * option error) :=
  match c with
  | None => Panic NilDereference
  | Some c =>
      if (idx <? 0) || (Z.of_nat (length (i64_values c)) <=? idx)
      then Done (0, Some "index out of range")
      else Done (nth (Z.to_nat idx) (i64_values c) 0, None)
  end.

(** Modelled from the spec: the SDK method [ValueByIdx] of
    [ColumnVarChar], not under src/; as [ColumnInt64_ValueByIdx], with the empty string as
    the value returned next to an error. *)
Definition ColumnVarChar_ValueByIdx (c : option ColumnVarChar) (idx : Z)
    : Outcome (string * option error) :=
  match c with
  | None => Panic NilDereference
  | Some c =>
      if (idx <? 0) || (Z.of_nat (length (vc_values c)) <=? idx)
      then Done ("", Some "index out of range")
      else Done (nth (Z.to_nat idx) (vc_values c) "", None)
  end.

(** The index descriptor [entity.IndexIvfFlat]. *)
Record IndexIvfFlat := { nlist : Z; metricType : MetricType }.

(** [entity.FloatVector], the one implementation of [entity.Vector] used. *)
Inductive Vector := FloatVector (v : list float32).

(** The search parameter [entity.IndexFlatSearchParam] (no settings). *)
Inductive SearchParam := IndexFlatSearchParam.

End entity.

(** ** package client (Milvus SDK): handles and search results *)
Module client.

(** A connected [client.Client]; the interface value held by [Milvus]. *)
Definition Client := positive.

(** [client.SearchResult]; [ResultCount] is a Go int, [Fields] the output
    columns, [Scores] the distances (milvus.go reads these three). *)
Record SearchResult := {
  ResultCount : Z;
  Fields : list entity.Column;
  Scores : list float32
}.

End client.

(** ** The world outside the functions *)

(** The calls that leave the process, with the arguments they are given.
    [ctx] is handed through unchanged by every function and is left out. *)
Module ext.

Inductive Call :=
| ReadFile (filename : string)
| NewGrpcClient (addr : string)
| ReleaseCollection (c : client.Client) (collName : string)
| HasCollection (c : client.Client) (collName : string)
| CreateCollection (c : client.Client) (schema : entity.Schema)
    (shardsNum : Z) (consistency : entity.ConsistencyLevel)
| CreateIndex (c : client.Client) (collName fieldName : string)
    (idx : option entity.IndexIvfFlat) (async : bool)
| Insert (c : client.Client) (collName partitionName : string)
    (columns : list entity.Column)
| LoadCollection (c : client.Client) (collName : string) (async : bool)
| Search (c : client.Client) (collName : string) (partitions : list string)
    (expr : string) (outputFields : list string)
    (vectors : list entity.Vector) (vectorField : string)
    (metricType : entity.MetricType) (topK : Z)
    (sp : option entity.SearchParam).

End ext.

(** One entry of the log: the call and the error it answered. *)
Record Event := { evCall : ext.Call; evErr : option error }.

(** The environment: what each external call answers, given the history of
    calls so far, and the pure library functions whose code is not part of
    this package. *)
Class Env := {
  on_ReadFile : list Event -> string -> list Byte.byte * option error;
  on_NewGrpcClient : list Event -> string -> option client.Client * option error;
  on_ReleaseCollection : list Event -> client.Client -> string -> option error;
  on_HasCollection : list Event -> client.Client -> string -> bool * option error;
  on_CreateCollection : list Event -> client.Client -> entity.Schema -> Z ->
                        entity.ConsistencyLevel -> option error;
  on_CreateIndex : list Event -> client.Client -> string -> string ->
                   option entity.IndexIvfFlat -> bool -> option error;
  on_Insert : list Event -> client.Client -> string -> string ->
              list entity.Column -> option entity.Column * option error;
  on_LoadCollection : list Event -> client.Client -> string -> bool -> option error;
  on_Search : list Event -> client.Client -> string -> list string -> string ->
              list string -> list entity.Vector -> string -> entity.MetricType ->
              Z -> option entity.SearchParam ->
              list client.SearchResult * option error;
  (* json.Unmarshal(data, &sections): the decoded slice and the error *)
  json_Unmarshal : list Byte.byte -> list gptbot.Section * option error;
  (* entity.NewIndexIvfFlat(metric, nlist): the descriptor and the error *)
  entity_NewIndexIvfFlat : entity.MetricType -> Z ->
                           option entity.IndexIvfFlat * option error;
  (* entity.NewIndexFlatSearchParam(): the parameter and the error *)
  entity_NewIndexFlatSearchParam : option entity.SearchParam * option error
}.

(** ** The package's own types *)

Record Config := {
  CollectionName : string;
  Addr : string;
  Dim : Z
}.

Record Milvus := {
  client : option client.Client;
  cfg : positive
}.

(** The heap of [Config] and [Milvus] values and the log of external
    calls. *)
Record World := {
  configs : gmap positive Config;
  milvuses : gmap positive Milvus;
  log : list Event
}.

(** ** The monad of Go code: state, log and panics *)

Definition M (A : Type) : Type := World -> Outcome A * World.

Definition ret {A} (a : A) : M A := fun w => (Done a, w).

Definition bind {A B} (m : M A) (k : A -> M B) : M B :=
  fun w =>
    match m w with
    | (Done a, w') => k a w'
    | (Panic p, w') => (Panic p, w')
    end.

Definition panic {A} (p : PanicKind) : M A := fun w => (Panic p, w).

Definition lift {A} (o : Outcome A) : M A := fun w => (o, w).

Declare Scope go_scope.
Delimit Scope go_scope with go.
Notation "'let*' p := e 'in' k" := (bind e (fun p => k))
  (at level 10, p pattern, e at level 200, k at level 200) : go_scope.
Notation "e ;; k" := (bind e (fun _ => k))
  (at level 100, right associativity) : go_scope.
Open Scope go_scope.

(** [*p] for [p] a pointer to a [Config]. *)
Definition loadConfig (p : positive) : M Config :=
  fun w =>
    match configs w !! p with
    | Some c => (Done c, w)
    | None => (Panic NilDereference, w)
    end.

(** [*p = c] for [p] a pointer to a [Config]. *)
Definition storeConfig (p : positive) (c : Config) : M unit :=
  fun w =>
    match configs w !! p with
    | Some _ =>
        (Done tt, {| configs := <[p := c]> (configs w);
                     milvuses := milvuses w; log := log w |})
    | None => (Panic NilDereference, w)
    end.

(** [*m] for [m] a pointer to a [Milvus]. *)
Definition loadMilvus (m : positive) : M Milvus :=
  fun w =>
    match milvuses w !! m with
    | Some v => (Done v, w)
    | None => (Panic NilDereference, w)
    end.

(** [&Milvus{...}]: a new address holding the value. *)
Definition newMilvus (v : Milvus) : M positive :=
  fun w =>
    let a := fresh (dom (milvuses w)) in
    (Done a, {| configs := configs w;
                milvuses := <[a := v]> (milvuses w); log := log w |}).

(** An external call: the environment answers from the history, and the
    call is logged with the error of the answer. *)
Definition perform {R} (c : ext.Call) (answer : list Event -> R * option error)
    : M (R * option error) :=
  fun w =>
    let r := answer (log w) in
    (Done r, {| configs := configs w; milvuses := milvuses w;
                log := log w ++ [{| evCall := c; evErr := snd r |}] |}).

(** A method call on the interface value [m.client]: nil panics. *)
Definition theClient (c : option client.Client) : M client.Client :=
  match c with
  | Some c => ret c
  | None => panic NilDereference
  end.

(** ** package milvus *)

Definition idCol : string := "id".
Definition titleCol : string := "title".
Definition headingCol : string := "heading".
Definition contentCol : string := "content".
Definition embeddingCol : string := "embedding".

(** Go's [int64(i)] of an int: every int is an int64, the value is kept. *)
Definition int64_of_int (i : Z) : Z := i.

Section Package.

Context {E : Env}.

(** The size in bits of Go's [int] on the platform (32 or 64). *)
Variable IntSize : Z.

(** Go's [int(v)] of an int64: kept on 64 bits, truncated on 32. *)
Definition int_of_int64 (v : Z) : Z := wrap IntSize v.

(** *** The client's methods, called on the interface value *)

Definition client_NewGrpcClient (addr : string)
    : M (option client.Client * option error) :=
  perform (ext.NewGrpcClient addr) (fun h => on_NewGrpcClient h addr).

Definition client_ReleaseCollection (c : option client.Client)
    (collName : string) : M (option error) :=
  let* cl := theClient c in
  let* (_, err) := perform (ext.ReleaseCollection cl collName)
                     (fun h => (tt, on_ReleaseCollection h cl collName)) in
  ret err.

Definition client_HasCollection (c : option client.Client)
    (collName : string) : M (bool * option error) :=
  let* cl := theClient c in
  perform (ext.HasCollection cl collName)
    (fun h => on_HasCollection h cl collName).

Definition client_CreateCollection (c : option client.Client)
    (schema : entity.Schema) (shardsNum : Z)
    (level : entity.ConsistencyLevel) : M (option error) :=
  let* cl := theClient c in
  let* (_, err) := perform (ext.CreateCollection cl schema shardsNum level)
                     (fun h => (tt, on_CreateCollection h cl schema shardsNum level)) in
  ret err.

Definition client_CreateIndex (c : option client.Client)
    (collName fieldName : string) (idx : option entity.IndexIvfFlat)
    (async : bool) : M (option error) :=
  let* cl := theClient c in
  let* (_, err) := perform (ext.CreateIndex cl collName fieldName idx async)
                     (fun h => (tt, on_CreateIndex h cl collName fieldName idx async)) in
  ret err.

Definition client_Insert (c : option client.Client)
    (collName partitionName : string) (columns : list entity.Column)
    : M (option entity.Column * option error) :=
  let* cl := theClient c in
  perform (ext.Insert cl collName partitionName columns)
    (fun h => on_Insert h cl collName partitionName columns).

Definition client_LoadCollection (c : option client.Client)
    (collName : string) (async : bool) : M (option error) :=
  let* cl := theClient c in
  let* (_, err) := perform (ext.LoadCollection cl collName async)
                     (fun h => (tt, on_LoadCollection h cl collName async)) in
  ret err.

Definition client_Search (c : option client.Client) (collName : string)
    (partitions : list string) (expr : string) (outputFields : list string)
    (vectors : list entity.Vector) (vectorField : string)
    (metricType : entity.MetricType) (topK : Z)
    (sp : option entity.SearchParam)
    : M (list client.SearchResult * option error) :=
  let* cl := theClient c in
  perform (ext.Search cl collName partitions expr outputFields vectors
             vectorField metricType topK sp)
    (fun h => on_Search h cl collName partitions expr outputFields vectors
                vectorField metricType topK sp).

Definition os_ReadFile (filename : string)
    : M (list Byte.byte * option error) :=
  perform (ext.ReadFile filename) (fun h => on_ReadFile h filename).

(** *** Field access through the receiver *)

(** [m.client] *)
Definition m_client (m : positive) : M (option client.Client) :=
  let* v := loadMilvus m in
  ret (client v).

(** [m.cfg.f] for a field [f] of [Config] *)
Definition m_cfg {A} (f : Config -> A) (m : positive) : M A :=
  let* v := loadMilvus m in
  let* c := loadConfig (cfg v) in
  ret (f c).

(** *** func (cfg *Config) init() *)
Definition init (cfg : positive) : M unit :=
  let* c := loadConfig cfg in
  (if String.eqb (Addr c) ""
   then storeConfig cfg {| CollectionName := CollectionName c;
                           Addr := "localhost:19530";
                           Dim := Dim c |}
   else ret tt) ;;
  let* c := loadConfig cfg in
  if Dim c =? 0
  then storeConfig cfg {| CollectionName := CollectionName c;
                          Addr := Addr c;
                          Dim := 1536 |}
  else ret tt.

(** *** func (m *Milvus) createCollectionIfNotExists(ctx) error *)
Definition schemaFor (collName : string) (dim : Z) : entity.Schema :=
  {| entity.CollectionName := collName;
     entity.SchemaAutoID := false;
     entity.Fields := [
       {| entity.Name := idCol;
          entity.DataType := entity.FieldTypeInt64;
          entity.PrimaryKey := true;
          entity.AutoID := false;
          entity.TypeParams := ∅ |};
       {| entity.Name := titleCol;
          entity.DataType := entity.FieldTypeVarChar;
          entity.PrimaryKey := false;
          entity.AutoID := false;
          entity.TypeParams := {[ entity.TypeParamMaxLength := Sprintf_d 50 ]} |};
       {| entity.Name := headingCol;
          entity.DataType := entity.FieldTypeVarChar;
          entity.PrimaryKey := false;
          entity.AutoID := false;
          entity.TypeParams := {[ entity.TypeParamMaxLength := Sprintf_d 50 ]} |};
       {| entity.Name := contentCol;
          entity.DataType := entity.FieldTypeVarChar;
          entity.PrimaryKey := false;
          entity.AutoID := false;
          entity.TypeParams := {[ entity.TypeParamMaxLength := Sprintf_d 5000 ]} |};
       {| entity.Name := embeddingCol;
          entity.DataType := entity.FieldTypeFloatVector;
          entity.PrimaryKey := false;
          entity.AutoID := false;
          entity.TypeParams := {[ entity.TypeParamDim := Sprintf_d dim ]} |}
     ] |}.

Definition createCollectionIfNotExists (m : positive) : M (option error) :=
  let* c := m_client m in
  let* name := m_cfg CollectionName m in
  let* (has, err) := client_HasCollection c name in
  match err with
  | Some e => ret (Some e)
  | None =>
      if has then ret None
      else
        let* name := m_cfg CollectionName m in
        let* dim := m_cfg Dim m in
        let schema := schemaFor name dim in
        let* c := m_client m in
        client_CreateCollection c schema 2 entity.ClBounded
  end.

(** *** func NewMilvus(cfg *Config): a pointer to a Milvus, and an error *)
Definition NewMilvus (cfg : positive) : M (option positive * option error) :=
  init cfg ;;
  let* c0 := loadConfig cfg in
  let* (c, err) := client_NewGrpcClient (Addr c0) in
  match err with
  | Some e => ret (None, Some e)
  | None =>
      let* m := newMilvus {| client := c; cfg := cfg |} in
      let* c := m_client m in
      let* name := m_cfg CollectionName m in
      let* _ := client_ReleaseCollection c name in
      let* err := createCollectionIfNotExists m in
      match err with
      | Some e => ret (None, Some e)
      | None => ret (Some m, None)
      end
  end.

(** *** func (m *Milvus) Insert(ctx, sections) error *)

(** The five slices the loop appends to. *)
Record InsertArrays := {
  ids : list Z;
  titles : list string;
  headings : list string;
  contents : list string;
  embeddings : list (list float32)
}.

(** [for i, section := range sections { ... append ... }], from index [i]. *)
Fixpoint insertLoop (i : Z) (sections : list gptbot.Section)
    (a : InsertArrays) : InsertArrays :=
  match sections with
  | [] => a
  | section :: rest =>
      insertLoop (i + 1) rest
        {| ids := ids a ++ [int64_of_int i];
           titles := titles a ++ [gptbot.Title section];
           headings := headings a ++ [gptbot.Heading section];
           contents := contents a ++ [gptbot.Content section];
           embeddings := embeddings a ++
                         [xslices.Float64ToNumber (gptbot.Embedding_ section)] |}
  end.

Definition Insert (m : positive) (sections : list gptbot.Section)
    : M (option error) :=
  let* c := m_client m in
  let* name := m_cfg CollectionName m in
  let* err := client_ReleaseCollection c name in
  match err with
  | Some e => ret (Some e)
  | None =>
      let a := insertLoop 0 sections
                 {| ids := []; titles := []; headings := [];
                    contents := []; embeddings := [] |} in
      let idColData := entity.NewColumnInt64 idCol (ids a) in
      let titleColData := entity.NewColumnVarChar titleCol (titles a) in
      let headingColData := entity.NewColumnVarChar headingCol (headings a) in
      let contentColData := entity.NewColumnVarChar contentCol (contents a) in
      let* dim := m_cfg Dim m in
      let embeddingColData :=
        entity.NewColumnFloatVector embeddingCol dim (embeddings a) in
      let (idx, err) := entity_NewIndexIvfFlat entity.L2 128 in
      match err with
      | Some e => ret (Some e)
      | None =>
          let* c := m_client m in
          let* name := m_cfg CollectionName m in
          let* err := client_CreateIndex c name embeddingCol idx false in
          match err with
          | Some e => ret (Some e)
          | None =>
              let* c := m_client m in
              let* name := m_cfg CollectionName m in
              let* (_, err) :=
                client_Insert c name ""
                  [idColData; titleColData; headingColData; contentColData;
                   embeddingColData] in
              ret err
          end
      end
  end.

(** *** func (m *Milvus) LoadJSON(ctx, filename) error *)
Definition LoadJSON (m : positive) (filename : string) : M (option error) :=
  let* (data, err) := os_ReadFile filename in
  match err with
  | Some e => ret (Some e)
  | None =>
      let (sections, err) := json_Unmarshal data in
      match err with
      | Some e => ret (Some e)
      | None => Insert m sections
      end
  end.

(** *** func constructSimilaritiesFromResult(result) *)

(** The four column pointers, nil until a field of the right name and type
    is seen. *)
Record ResultCols := {
  iCol : option entity.ColumnInt64;
  tCol : option entity.ColumnVarChar;
  hCol : option entity.ColumnVarChar;
  cCol : option entity.ColumnVarChar
}.

(** One round of [for _, field := range result.Fields { switch ... }]. *)
Definition pickField (p : ResultCols) (field : entity.Column) : ResultCols :=
  let name := entity.Column_Name field in
  if String.eqb name idCol then
    match field with
    | entity.OfInt64 c =>
        {| iCol := Some c; tCol := tCol p; hCol := hCol p; cCol := cCol p |}
    | _ => p
    end
  else if String.eqb name titleCol then
    match field with
    | entity.OfVarChar c =>
        {| iCol := iCol p; tCol := Some c; hCol := hCol p; cCol := cCol p |}
    | _ => p
    end
  else if String.eqb name headingCol then
    match field with
    | entity.OfVarChar c =>
        {| iCol := iCol p; tCol := tCol p; hCol := Some c; cCol := cCol p |}
    | _ => p
    end
  else if String.eqb name contentCol then
    match field with
    | entity.OfVarChar c =>
        {| iCol := iCol p; tCol := tCol p; hCol := hCol p; cCol := Some c |}
    | _ => p
    end
  else p.

Definition pickFields (fields : list entity.Column) : ResultCols :=
  fold_left pickField fields
    {| iCol := None; tCol := None; hCol := None; cCol := None |}.

(** [for i := 0; i < result.ResultCount; i++ { ... }]: [n] rounds are left
    to run, the next one at index [i]. *)
Fixpoint rowsLoop (n : nat) (i : Z) (p : ResultCols)
    (result : client.SearchResult) (similarities : list gptbot.Similarity)
    : Outcome (list gptbot.Similarity * option error) :=
  match n with
  | O => Done (similarities, None)
  | S n' =>
      obind (entity.ColumnInt64_ValueByIdx (iCol p) i) (fun r1 =>
      match snd r1 with
      | Some e => Done ([], Some e)
      | None =>
      obind (entity.ColumnVarChar_ValueByIdx (tCol p) i) (fun r2 =>
      match snd r2 with
      | Some e => Done ([], Some e)
      | None =>
      obind (entity.ColumnVarChar_ValueByIdx (hCol p) i) (fun r3 =>
      match snd r3 with
      | Some e => Done ([], Some e)
      | None =>
      obind (entity.ColumnVarChar_ValueByIdx (cCol p) i) (fun r4 =>
      match snd r4 with
      | Some e => Done ([], Some e)
      | None =>
      obind (index (client.Scores result) i) (fun score =>
      rowsLoop n' (i + 1) p result
        (similarities ++
         [{| gptbot.Section_ :=
               {| gptbot.Title := fst r2;
                  gptbot.Heading := fst r3;
                  gptbot.Content := fst r4;
                  gptbot.Embedding_ := [] |};
             gptbot.ID := int_of_int64 (fst r1);
             gptbot.Score := float64_of_float32 score |}]))
      end)
      end)
      end)
      end)
  end.

Definition constructSimilaritiesFromResult (result : client.SearchResult)
    : Outcome (list gptbot.Similarity * option error) :=
  let p := pickFields (client.Fields result) in
  rowsLoop (Z.to_nat (client.ResultCount result)) 0 p result [].

(** *** func (m *Milvus) Query(ctx, embedding, topK) *)
Definition Query (m : positive) (embedding : gptbot.Embedding) (topK : Z)
    : M (list gptbot.Similarity * option error) :=
  let* c := m_client m in
  let* name := m_cfg CollectionName m in
  let* err := client_LoadCollection c name false in
  match err with
  | Some e => ret ([], Some e)
  | None =>
      let float32Emb := xslices.Float64ToNumber embedding in
      let vec2search := [entity.FloatVector float32Emb] in
      let (param, _) := entity_NewIndexFlatSearchParam in
      let* c := m_client m in
      let* name := m_cfg CollectionName m in
      let* (result, err) :=
        client_Search c name [] ""
          [idCol; titleCol; headingCol; contentCol]
          vec2search embeddingCol entity.L2 topK param in
      match err with
      | Some e => ret ([], Some e)
      | None =>
          let* r0 := lift (index result 0) in
          lift (constructSimilaritiesFromResult r0)
      end
  end.

End Package.

(** ** Vocabulary of the statements *)

(** The world after some more external calls: the heap is the same, the log
    is longer. *)
Definition logged (w : World) (evs : list Event) : World :=
  {| configs := configs w; milvuses := milvuses w; log := log w ++ evs |}.

(** [keeps f c]: running [c] never changes the component [f] of the
    world. *)
Definition keeps {X A} (f : World -> X) (c : M A) : Prop :=
  forall w, f (snd (c w)) = f w.


(** The [Config] that [init] leaves behind when it starts from [c]. *)
Definition afterInit (c : Config) : Config :=
  {| CollectionName := CollectionName c;
     Addr := if String.eqb (Addr c) "" then "localhost:19530" else Addr c;
     Dim := if Dim c =? 0 then 1536 else Dim c |}.

(** ** Sample data and environments *)

Definition sampleSections : list gptbot.Section :=
  [ {| gptbot.Title := "Go"; gptbot.Heading := "Slices";
       gptbot.Content := "A slice is a view of an array.";
       gptbot.Embedding_ :=
         [S754_finite false 7205759403792794 (-56); S754_zero false] |};
    {| gptbot.Title := "Go"; gptbot.Heading := "Maps";
       gptbot.Content := "A map is a hash table.";
       gptbot.Embedding_ :=
         [S754_finite true 1 0; S754_finite false 3 (-1)] |} ].

Definition sampleResult : client.SearchResult :=
  {| client.ResultCount := 2;
     client.Fields :=
       [ entity.NewColumnInt64 idCol [1; 0];
         entity.NewColumnVarChar titleCol ["Go"; "Go"];
         entity.NewColumnVarChar headingCol ["Maps"; "Slices"];
         entity.NewColumnVarChar contentCol
           ["A map is a hash table."; "A slice is a view of an array."] ];
     client.Scores :=
       [S754_finite false 1 (-2); S754_finite false 3 (-1)] |}.

(** An environment without memory: [fail] gives the error each call
    answers, [has] what HasCollection reports, [found] what Search returns,
    [ivf] what building the index descriptor returns. *)
Definition stubEnv (fail : ext.Call -> option error) (has : bool)
    (found : list client.SearchResult)
    (ivf : option entity.IndexIvfFlat * option error) : Env :=
  {| on_ReadFile := fun _ f => ([], fail (ext.ReadFile f));
     on_NewGrpcClient := fun _ a => (Some 1%positive, fail (ext.NewGrpcClient a));
     on_ReleaseCollection := fun _ c n => fail (ext.ReleaseCollection c n);
     on_HasCollection := fun _ c n => (has, fail (ext.HasCollection c n));
     on_CreateCollection := fun _ c s n l => fail (ext.CreateCollection c s n l);
     on_CreateIndex := fun _ c n f i a => fail (ext.CreateIndex c n f i a);
     on_Insert := fun _ c n p cols => (None, fail (ext.Insert c n p cols));
     on_LoadCollection := fun _ c n a => fail (ext.LoadCollection c n a);
     on_Search := fun _ c n ps e fs vs vf mt k sp =>
                    (found, fail (ext.Search c n ps e fs vs vf mt k sp));
     json_Unmarshal := fun _ => (sampleSections, None);
     entity_NewIndexIvfFlat := fun _ _ => ivf;
     entity_NewIndexFlatSearchParam := (Some entity.IndexFlatSearchParam, None) |}.

Definition sampleIvf : option entity.IndexIvfFlat * option error :=
  (Some {| entity.nlist := 128; entity.metricType := entity.L2 |}, None).

(** Every call succeeds; the collection does not exist yet. *)
Definition quietEnv : Env := stubEnv (fun _ => None) false [sampleResult] sampleIvf.

(** A caller's [Config] with only the required field set, at address 1. *)
Definition bareConfig : Config :=
  {| CollectionName := "docs"; Addr := ""; Dim := 0 |}.

Definition freshWorld : World :=
  {| configs := {[ 1%positive := bareConfig ]}; milvuses := ∅; log := [] |}.

(** A world holding a connected [Milvus] at address 1. *)
Definition readyWorld : World :=
  {| configs := {[ 1%positive := afterInit bareConfig ]};
     milvuses := {[ 1%positive := {| client := Some 1%positive; cfg := 1%positive |} ]};
     log := [] |}.

(** ** The log entries of the calls, as the environment answers them *)

Section Events.
Context {E : Env}.

Definition evReadFile (h : list Event) (filename : string) : Event :=
  {| evCall := ext.ReadFile filename;
     evErr := snd (on_ReadFile h filename) |}.

Definition evNewGrpcClient (h : list Event) (addr : string) : Event :=
  {| evCall := ext.NewGrpcClient addr;
     evErr := snd (on_NewGrpcClient h addr) |}.

Definition evReleaseCollection (h : list Event) (cl : client.Client)
    (name : string) : Event :=
  {| evCall := ext.ReleaseCollection cl name;
     evErr := on_ReleaseCollection h cl name |}.

Definition evHasCollection (h : list Event) (cl : client.Client)
    (name : string) : Event :=
  {| evCall := ext.HasCollection cl name;
     evErr := snd (on_HasCollection h cl name) |}.

Definition evCreateCollection (h : list Event) (cl : client.Client)
    (schema : entity.Schema) (shards : Z) (level : entity.ConsistencyLevel)
    : Event :=
  {| evCall := ext.CreateCollection cl schema shards level;
     evErr := on_CreateCollection h cl schema shards level |}.

Definition evCreateIndex (h : list Event) (cl : client.Client)
    (name field : string) (idx : option entity.IndexIvfFlat) (async : bool)
    : Event :=
  {| evCall := ext.CreateIndex cl name field idx async;
     evErr := on_CreateIndex h cl name field idx async |}.

Definition evInsert (h : list Event) (cl : client.Client)
    (name partition : string) (columns : list entity.Column) : Event :=
  {| evCall := ext.Insert cl name partition columns;
     evErr := snd (on_Insert h cl name partition columns) |}.

Definition evLoadCollection (h : list Event) (cl : client.Client)
    (name : string) (async : bool) : Event :=
  {| evCall := ext.LoadCollection cl name async;
     evErr := on_LoadCollection h cl name async |}.

Definition evSearch (h : list Event) (cl : client.Client) (name : string)
    (partitions : list string) (expr : string) (outputFields : list string)
    (vectors : list entity.Vector) (vectorField : string)
    (metricType : entity.MetricType) (topK : Z)
    (sp : option entity.SearchParam) : Event :=
  {| evCall := ext.Search cl name partitions expr outputFields vectors
                 vectorField metricType topK sp;
     evErr := snd (on_Search h cl name partitions expr outputFields vectors
                     vectorField metricType topK sp) |}.

End Events.

(** The columns [Insert] hands to the client, as its loop builds them. *)
Definition insertColumns (dim : Z) (sections : list gptbot.Section)
    : list entity.Column :=
  let a := insertLoop 0 sections
             {| ids := []; titles := []; headings := [];
                contents := []; embeddings := [] |} in
  [ entity.NewColumnInt64 idCol (ids a);
    entity.NewColumnVarChar titleCol (titles a);
    entity.NewColumnVarChar headingCol (headings a);
    entity.NewColumnVarChar contentCol (contents a);
    entity.NewColumnFloatVector embeddingCol dim (embeddings a) ].

(** [m] points to a [Milvus] whose client is connected and whose [cfg]
    points to a [Config]: what [NewMilvus] returns on success. *)
Definition receiver (w : World) (m : positive) (cl : client.Client)
    (c : Config) : Prop :=
  exists mv, milvuses w !! m = Some mv /\ client mv = Some cl /\
             configs w !! cfg mv = Some c.

(** The release is refused; everything else would succeed. *)
Definition releaseRefused : Env :=
  stubEnv (fun c => match c with
                    | ext.ReleaseCollection _ _ => Some "collection not loaded"
                    | _ => None
                    end)
          true [sampleResult] sampleIvf.

(** ** Which columns the result reshaping reads *)

(** The last field that is an int64 column called [name]. *)
Definition lastInt64 (name : string) (fields : list entity.Column)
    : option entity.ColumnInt64 :=
  last (omap (fun f => match f with
                       | entity.OfInt64 c =>
                           if String.eqb (entity.i64_name c) name
                           then Some c else None
                       | _ => None
                       end) fields).

(** The last field that is a varchar column called [name]. *)
Definition lastVarChar (name : string) (fields : list entity.Column)
    : option entity.ColumnVarChar :=
  last (omap (fun f => match f with
                       | entity.OfVarChar c =>
                           if String.eqb (entity.vc_name c) name
                           then Some c else None
                       | _ => None
                       end) fields).

(** Row [k] of a result whose columns are [ic], [tc], [hc], [cc]. *)
Definition similarityAt (IntSize : Z) (ic : entity.ColumnInt64)
    (tc hc cc : entity.ColumnVarChar) (scores : list float32) (k : nat)
    : gptbot.Similarity :=
  {| gptbot.Section_ :=
       {| gptbot.Title := nth k (entity.vc_values tc) "";
          gptbot.Heading := nth k (entity.vc_values hc) "";
          gptbot.Content := nth k (entity.vc_values cc) "";
          gptbot.Embedding_ := [] |};
     gptbot.ID := int_of_int64 IntSize (nth k (entity.i64_values ic) 0);
     gptbot.Score := float64_of_float32 (nth k scores (S754_zero false)) |}.

(** The four columns the reshaping reads are there, and they and the
    scores hold a value for every row. *)
Definition readable (r : client.SearchResult) (ic : entity.ColumnInt64)
    (tc hc cc : entity.ColumnVarChar) : Prop :=
  lastInt64 idCol (client.Fields r) = Some ic /\
  lastVarChar titleCol (client.Fields r) = Some tc /\
  lastVarChar headingCol (client.Fields r) = Some hc /\
  lastVarChar contentCol (client.Fields r) = Some cc /\
  client.ResultCount r <= Z.of_nat (length (entity.i64_values ic)) /\
  client.ResultCount r <= Z.of_nat (length (entity.vc_values tc)) /\
  client.ResultCount r <= Z.of_nat (length (entity.vc_values hc)) /\
  client.ResultCount r <= Z.of_nat (length (entity.vc_values cc)) /\
  client.ResultCount r <= Z.of_nat (length (client.Scores r)).

(** The one search [Query] issues, and the answer it gets after the
    history [h]. *)
Definition searchCall {E : Env} (cl : client.Client) (name : string)
    (embedding : gptbot.Embedding) (topK : Z) : ext.Call :=
  ext.Search cl name [] "" [idCol; titleCol; headingCol; contentCol]
    [entity.FloatVector (xslices.Float64ToNumber embedding)]
    embeddingCol entity.L2 topK (fst entity_NewIndexFlatSearchParam).

Definition searchAnswer {E : Env} (h : list Event) (cl : client.Client)
    (name : string) (embedding : gptbot.Embedding) (topK : Z)
    : list client.SearchResult * option error :=
  on_Search h cl name [] "" [idCol; titleCol; headingCol; contentCol]
    [entity.FloatVector (xslices.Float64ToNumber embedding)]
    embeddingCol entity.L2 topK (fst entity_NewIndexFlatSearchParam).

(** The precondition of the reshaping in the words of the specification:
    the fields include an int64 column named id and varchar columns named
    title, heading and content, each holding at least ResultCount values. *)
Definition claimedPrecondition (r : client.SearchResult)
    (ic : entity.ColumnInt64) (tc hc cc : entity.ColumnVarChar) : Prop :=
  entity.OfInt64 ic ∈ client.Fields r /\ entity.i64_name ic = idCol /\
  entity.OfVarChar tc ∈ client.Fields r /\ entity.vc_name tc = titleCol /\
  entity.OfVarChar hc ∈ client.Fields r /\ entity.vc_name hc = headingCol /\
  entity.OfVarChar cc ∈ client.Fields r /\ entity.vc_name cc = contentCol /\
  client.ResultCount r <= Z.of_nat (length (entity.i64_values ic)) /\
  client.ResultCount r <= Z.of_nat (length (entity.vc_values tc)) /\
  client.ResultCount r <= Z.of_nat (length (entity.vc_values hc)) /\
  client.ResultCount r <= Z.of_nat (length (entity.vc_values cc)).

(** One row, all four columns, but no score. *)
Definition scoresMissing : client.SearchResult :=
  {| client.ResultCount := 1;
     client.Fields :=
       [ entity.NewColumnInt64 idCol [7];
         entity.NewColumnVarChar titleCol ["Go"];
         entity.NewColumnVarChar headingCol ["Maps"];
         entity.NewColumnVarChar contentCol ["A map is a hash table."] ];
     client.Scores := [] |}.

(** One row, all four columns, and a second, empty id column after the
    first. *)
Definition idShadowed : client.SearchResult :=
  {| client.ResultCount := 1;
     client.Fields :=
       [ entity.NewColumnInt64 idCol [7];
         entity.NewColumnInt64 idCol [];
         entity.NewColumnVarChar titleCol ["Go"];
         entity.NewColumnVarChar headingCol ["Maps"];
         entity.NewColumnVarChar contentCol ["A map is a hash table."] ];
     client.Scores := [S754_finite false 1 (-2)] |}.

(** One row announced, an empty id column and no other column. *)
Definition onlyEmptyId : client.SearchResult :=
  {| client.ResultCount := 1;
     client.Fields := [ entity.NewColumnInt64 idCol [] ];
     client.Scores := [S754_finite false 1 (-2)] |}.

(** One row, but the title arrives as an int64 column. *)
Definition titleMistyped : client.SearchResult :=
  {| client.ResultCount := 1;
     client.Fields :=
       [ entity.NewColumnInt64 idCol [7];
         entity.NewColumnInt64 titleCol [0];
         entity.NewColumnVarChar headingCol ["Maps"];
         entity.NewColumnVarChar contentCol ["A map is a hash table."] ];
     client.Scores := [S754_finite false 1 (-2)] |}.

(** The world once [init] has run on the [Config] [c] at [cfg]. *)
Definition initialised (w : World) (cfg : positive) (c : Config) : World :=
  {| configs := <[cfg := afterInit c]> (configs w);
     milvuses := milvuses w;
     log := log w |}.

(** The world once, after that, the [Milvus] value [v] has been
    allocated. *)
Definition allocated (w : World) (cfg : positive) (c : Config) (v : Milvus)
    : World :=
  {| configs := <[cfg := afterInit c]> (configs w);
     milvuses := <[fresh (dom (milvuses w)) := v]> (milvuses w);
     log := log w |}.

(** The file cannot be read. *)
Definition fileMissing : Env :=
  stubEnv (fun c => match c with
                    | ext.ReadFile _ => Some "no such file"
                    | _ => None
                    end)
          true [sampleResult] sampleIvf.

(** ** Further vocabulary and sample environments *)

(** [appends n c]: running [c] only adds entries at the end of the log, at
    most [n] of them. *)
Definition appends {A} (n : nat) (c : M A) : Prop :=
  forall w, exists evs : list Event,
    log (snd (c w)) = (log w ++ evs)%list /\ (length evs <= n)%nat.

(** The server cannot be reached. *)
Definition connectRefused : Env :=
  stubEnv (fun c => match c with
                    | ext.NewGrpcClient _ => Some "connection refused"
                    | _ => None
                    end)
          false [sampleResult] sampleIvf.

(** Every call succeeds and the search finds nothing: no result at all. *)
Definition searchEmpty : Env := stubEnv (fun _ => None) true [] sampleIvf.

(** Two rows announced, but the title column holds one value only. *)
Definition titleShort : client.SearchResult :=
  {| client.ResultCount := 2;
     client.Fields :=
       [ entity.NewColumnInt64 idCol [1; 0];
         entity.NewColumnVarChar titleCol ["Go"];
         entity.NewColumnVarChar headingCol ["Maps"; "Slices"];
         entity.NewColumnVarChar contentCol
           ["A map is a hash table."; "A slice is a view of an array."] ];
     client.Scores := [S754_finite false 1 (-2); S754_finite false 3 (-1)] |}.

(** * The functions on the sample data *)

Example float32_of_float64_tenth :
  float32_of_float64 (S754_finite false 7205759403792794 (-56))
    = S754_finite false 13421773 (-27).
Proof. reflexivity. Qed.

Example insertColumns_sample :
  insertColumns 1536 sampleSections =
    [ entity.NewColumnInt64 "id" [0; 1];
      entity.NewColumnVarChar "title" ["Go"; "Go"];
      entity.NewColumnVarChar "heading" ["Slices"; "Maps"];
      entity.NewColumnVarChar "content"
        ["A slice is a view of an array."; "A map is a hash table."];
      entity.NewColumnFloatVector "embedding" 1536
        [ [S754_finite false 13421773 (-27); S754_zero false];
          [S754_finite true 8388608 (-23); S754_finite false 12582912 (-23)] ] ].
Proof. reflexivity. Qed.

Example Insert_sample_calls :
  map evCall (log (snd (Insert (E := quietEnv) 1 sampleSections readyWorld))) =
    [ ext.ReleaseCollection 1%positive "docs";
      ext.CreateIndex 1%positive "docs" "embedding"
        (Some {| entity.nlist := 128; entity.metricType := entity.L2 |}) false;
      ext.Insert 1%positive "docs" "" (insertColumns 1536 sampleSections) ].
Proof. reflexivity. Qed.

Example constructSimilaritiesFromResult_sample :
  constructSimilaritiesFromResult 64 sampleResult =
    Done ([ {| gptbot.Section_ :=
                 {| gptbot.Title := "Go"; gptbot.Heading := "Maps";
                    gptbot.Content := "A map is a hash table.";
                    gptbot.Embedding_ := [] |};
               gptbot.ID := 1;
               gptbot.Score := S754_finite false 1 (-2) |};
            {| gptbot.Section_ :=
                 {| gptbot.Title := "Go"; gptbot.Heading := "Slices";
                    gptbot.Content := "A slice is a view of an array.";
                    gptbot.Embedding_ := [] |};
               gptbot.ID := 0;
               gptbot.Score := S754_finite false 3 (-1) |} ],
          None).
Proof. reflexivity. Qed.

Example NewMilvus_sample :
  fst (NewMilvus (E := quietEnv) 1 freshWorld) = Done (Some 1%positive, None) /\
  map evCall (log (snd (NewMilvus (E := quietEnv) 1 freshWorld))) =
    [ ext.NewGrpcClient "localhost:19530";
      ext.ReleaseCollection 1%positive "docs";
      ext.HasCollection 1%positive "docs";
      ext.CreateCollection 1%positive (schemaFor "docs" 1536) 2 entity.ClBounded ].
Proof. split; reflexivity. Qed.

Example NewMilvus_nil_config :
  fst (NewMilvus (E := quietEnv) 2 freshWorld) = Panic NilDereference.
Proof. reflexivity. Qed.

(** * Reasoning about runs *)

Lemma logged_nil w : logged w [] = w.
Proof. destruct w; unfold logged; simpl. by rewrite app_nil_r. Qed.

Lemma logged_logged w a b : logged (logged w a) b = logged w (a ++ b).
Proof. unfold logged; simpl. by rewrite app_assoc. Qed.

Lemma bind_done {A B} (m : M A) (k : A -> M B) w a w' :
  m w = (Done a, w') -> bind m k w = k a w'.
Proof. unfold bind. by intros ->. Qed.

Lemma bind_unfold {A B} (m : M A) (k : A -> M B) w :
  bind m k w =
    match m w with
    | (Done a, w') => k a w'
    | (Panic p, w') => (Panic p, w')
    end.
Proof. reflexivity. Qed.

Lemma bind_panic {A B} (m : M A) (k : A -> M B) w p w' :
  m w = (Panic p, w') -> bind m k w = (Panic p, w').
Proof. unfold bind. by intros ->. Qed.

(** ** What a computation leaves untouched *)

Section Keeps.
Context {X : Type} (f : World -> X).

Lemma keeps_ret {A} (a : A) : keeps f (ret a).
Proof. by intros w. Qed.

Lemma keeps_panic {A} p : keeps f (@panic A p).
Proof. by intros w. Qed.

Lemma keeps_lift {A} (o : Outcome A) : keeps f (lift o).
Proof. by intros w. Qed.

Lemma keeps_bind {A B} (c : M A) (k : A -> M B) :
  keeps f c -> (forall a, keeps f (k a)) -> keeps f (bind c k).
Proof.
  intros Hc Hk w. unfold bind.
  specialize (Hc w). destruct (c w) as [[a|p] w1]; simpl in *.
  - by rewrite Hk.
  - done.
Qed.

Lemma keeps_loadConfig p : keeps f (loadConfig p).
Proof. intros w. unfold loadConfig. by destruct (configs w !! p). Qed.

Lemma keeps_loadMilvus m : keeps f (loadMilvus m).
Proof. intros w. unfold loadMilvus. by destruct (milvuses w !! m). Qed.

Lemma keeps_theClient c : keeps f (theClient c).
Proof. destruct c; [apply keeps_ret | apply keeps_panic]. Qed.

Lemma keeps_if {A} (b : bool) (c1 c2 : M A) :
  keeps f c1 -> keeps f c2 -> keeps f (if b then c1 else c2).
Proof. by destruct b. Qed.

Lemma keeps_match_err {A} (o : option error) (c1 : error -> M A) (c2 : M A) :
  (forall e, keeps f (c1 e)) -> keeps f c2 ->
  keeps f (match o with Some e => c1 e | None => c2 end).
Proof. by destruct o. Qed.

Lemma keeps_let_pair {A B C} (p : A * B) (k : A -> B -> M C) :
  (forall a b, keeps f (k a b)) -> keeps f (let (a, b) := p in k a b).
Proof. by destruct p. Qed.

End Keeps.

(** External calls only write the log. *)
Lemma keeps_configs_perform {R} c (answer : list Event -> R * option error) :
  keeps configs (perform c answer).
Proof. by intros w. Qed.

Lemma keeps_milvuses_perform {R} c (answer : list Event -> R * option error) :
  keeps milvuses (perform c answer).
Proof. by intros w. Qed.

Lemma keeps_configs_newMilvus v : keeps configs (newMilvus v).
Proof. by intros w. Qed.

Lemma keeps_milvuses_storeConfig p c : keeps milvuses (storeConfig p c).
Proof. intros w. unfold storeConfig. by destruct (configs w !! p). Qed.

Lemma keeps_log_storeConfig p c : keeps log (storeConfig p c).
Proof. intros w. unfold storeConfig. by destruct (configs w !! p). Qed.

Create HintDb keeps.
#[export] Hint Resolve keeps_ret keeps_panic keeps_lift keeps_loadConfig
  keeps_loadMilvus keeps_theClient keeps_configs_perform
  keeps_milvuses_perform keeps_configs_newMilvus keeps_milvuses_storeConfig
  keeps_log_storeConfig : keeps.

(** Walks through a computation built from [bind], branches and the
    primitives above. *)
Ltac keeps_step :=
  first
    [ apply keeps_bind; [| intros ?]
    | apply keeps_match_err; [intros ?|]
    | apply keeps_let_pair; intros ? ?
    | apply keeps_if
    | solve [auto with keeps]
    | match goal with
      | |- keeps _ (match ?x with _ => _ end) => destruct x
      | |- keeps _ (let (_, _) := ?x in _) => destruct x
      end ].
Ltac keeps_tac := repeat keeps_step.

(** * The claims *)

Section Frame.
Context {E : Env}.

(** C7. Insert, Query and LoadJSON leave the heap as they found it: every
    [Milvus] value (its client handle and its pointer to the configuration)
    and every [Config] (CollectionName, Addr, Dim) is the same after the
    call as before it, whatever the environment answers and however the
    call ends. *)
Theorem Insert_Query_LoadJSON_keep_heap (IntSize : Z) (w : World)
    (m : positive) (sections : list gptbot.Section)
    (embedding : gptbot.Embedding) (topK : Z) (filename : string) :
  (milvuses (snd (Insert m sections w)) = milvuses w /\
   configs (snd (Insert m sections w)) = configs w) /\
  (milvuses (snd (Query IntSize m embedding topK w)) = milvuses w /\
   configs (snd (Query IntSize m embedding topK w)) = configs w) /\
  (milvuses (snd (LoadJSON m filename w)) = milvuses w /\
   configs (snd (LoadJSON m filename w)) = configs w).
Proof.
  assert (HI : forall s, keeps milvuses (Insert m s) /\ keeps configs (Insert m s)).
  { intros s; split;
      unfold Insert, m_client, m_cfg, client_ReleaseCollection,
        client_CreateIndex, client_Insert; keeps_tac. }
  assert (HQ : keeps milvuses (Query IntSize m embedding topK) /\
               keeps configs (Query IntSize m embedding topK)).
  { split;
      unfold Query, m_client, m_cfg, client_LoadCollection, client_Search;
      keeps_tac. }
  assert (HL : keeps milvuses (LoadJSON m filename) /\
               keeps configs (LoadJSON m filename)).
  { split; unfold LoadJSON, os_ReadFile; keeps_tac; apply HI. }
  destruct (HI sections) as [H1 H2], HQ as [H3 H4], HL as [H5 H6].
  repeat split; [apply H1 | apply H2 | apply H3 | apply H4 | apply H5 | apply H6].
Qed.

End Frame.

(** ** Config.init *)

Lemma init_run (w : World) (cfg : positive) (c : Config) :
  configs w !! cfg = Some c ->
  init cfg w =
    (Done tt, {| configs := <[cfg := afterInit c]> (configs w);
                 milvuses := milvuses w; log := log w |}).
Proof.
  intros Hc. destruct w as [cs ms l]; simpl in *.
  unfold init, bind, loadConfig, storeConfig, ret, afterInit; simpl.
  rewrite Hc.
  destruct (String.eqb (Addr c) "") eqn:Ha; simpl.
  - rewrite Hc; simpl. rewrite lookup_insert_eq; simpl.
    destruct (Dim c =? 0) eqn:Hd; simpl.
    + rewrite lookup_insert_eq. by rewrite insert_insert_eq.
    + done.
  - rewrite Hc; simpl.
    destruct (Dim c =? 0) eqn:Hd; simpl.
    + by rewrite Hc.
    + f_equal. f_equal. symmetry. apply insert_id. rewrite Hc. by destruct c.
Qed.

Section InitClaim.
Context {E : Env}.

Lemma keeps_configs_after_init (cfg : positive) (k : M (option positive * option error)) w c :
  configs w !! cfg = Some c ->
  keeps configs k ->
  configs (snd (bind (init cfg) (fun _ => k) w)) = <[cfg := afterInit c]> (configs w).
Proof.
  intros Hc Hk. erewrite bind_done by (by apply init_run).
  by rewrite Hk.
Qed.

Lemma NewMilvus_configs (w : World) (cfg : positive) (c : Config) :
  configs w !! cfg = Some c ->
  configs (snd (NewMilvus cfg w)) = <[cfg := afterInit c]> (configs w).
Proof.
  intros Hc. unfold NewMilvus. apply keeps_configs_after_init; [done|].
  unfold client_NewGrpcClient, createCollectionIfNotExists, m_client, m_cfg,
    client_ReleaseCollection, client_HasCollection, client_CreateCollection.
  keeps_tac.
Qed.

(** C8. Config initialization, which NewMilvus runs in place on the
    caller's Config: afterwards the Config at the caller's address has Addr
    "localhost:19530" if Addr was empty and its old Addr otherwise, Dim 1536
    if Dim was 0 and its old Dim otherwise, and the CollectionName it had;
    no other Config is touched.  This holds for [init] alone (which ends
    normally and does nothing else) and for the Config as NewMilvus leaves
    it, however NewMilvus ends. *)
Theorem init_sets_defaults_in_place (w : World) (cfg : positive) (c : Config) :
  configs w !! cfg = Some c ->
  forall w', (w' = snd (init cfg w) \/ w' = snd (NewMilvus cfg w)) ->
  exists c',
    configs w' !! cfg = Some c' /\
    (forall p, p <> cfg -> configs w' !! p = configs w !! p) /\
    CollectionName c' = CollectionName c /\
    (Addr c = "" -> Addr c' = "localhost:19530") /\
    (Addr c <> "" -> Addr c' = Addr c) /\
    (Dim c = 0 -> Dim c' = 1536) /\
    (Dim c <> 0 -> Dim c' = Dim c) /\
    fst (init cfg w) = Done tt /\
    milvuses (snd (init cfg w)) = milvuses w /\
    log (snd (init cfg w)) = log w.
Proof.
  intros Hc w' Hw'.
  assert (Hcfg : configs w' = <[cfg := afterInit c]> (configs w)).
  { destruct Hw' as [-> | ->].
    - by rewrite (init_run w cfg c Hc).
    - by apply NewMilvus_configs. }
  exists (afterInit c). rewrite Hcfg, (init_run w cfg c Hc). simpl.
  split; [apply lookup_insert_eq|].
  split; [intros p Hp; by apply lookup_insert_ne|].
  split; [done|].
  unfold afterInit; simpl.
  repeat split.
  - intros ->. done.
  - intros Hne. destruct (String.eqb_spec (Addr c) ""); [done | done].
  - intros ->. done.
  - intros Hne. destruct (Z.eqb_spec (Dim c) 0); [done | done].
Qed.

End InitClaim.

(** Witness of C8: a Config with only CollectionName set gets both
    defaults. *)
Lemma init_sets_defaults_in_place_witness :
  exists c',
    configs (snd (NewMilvus (E := quietEnv) 1 freshWorld)) !! 1%positive = Some c' /\
    CollectionName c' = "docs" /\ Addr c' = "localhost:19530" /\ Dim c' = 1536.
Proof.
  destruct (init_sets_defaults_in_place (E := quietEnv) freshWorld 1 bareConfig
              (lookup_singleton_eq _ _)
              _ (or_intror eq_refl))
    as (c' & H1 & _ & H2 & H3 & _ & H4 & _).
  exists c'. split; [exact H1|]. split; [exact H2|].
  split; [apply H3; reflexivity | apply H4; reflexivity].
Defined.

(** * Runs on a connected receiver *)

Section Runs.
Context {E : Env}.

Lemma receiver_logged w m cl c evs :
  receiver w m cl c -> receiver (logged w evs) m cl c.
Proof. by intros (mv & ? & ? & ?); exists mv. Qed.

Lemma m_client_lookup w m mv :
  milvuses w !! m = Some mv -> m_client m w = (Done (client mv), w).
Proof.
  intros Hm. unfold m_client, bind, loadMilvus, ret. by rewrite Hm.
Qed.

Lemma m_cfg_lookup {A} (f : Config -> A) w m mv c :
  milvuses w !! m = Some mv -> configs w !! cfg mv = Some c ->
  m_cfg f m w = (Done (f c), w).
Proof.
  intros Hm Hc. unfold m_cfg, bind, loadMilvus, loadConfig, ret.
  by rewrite Hm, Hc.
Qed.

Lemma m_client_run w m cl c :
  receiver w m cl c -> m_client m w = (Done (Some cl), w).
Proof.
  intros (mv & Hm & Hcl & Hc). unfold m_client, bind, loadMilvus, ret.
  by rewrite Hm, Hcl.
Qed.

Lemma m_cfg_run {A} (f : Config -> A) w m cl c :
  receiver w m cl c -> m_cfg f m w = (Done (f c), w).
Proof.
  intros (mv & Hm & Hcl & Hc). unfold m_cfg, bind, loadMilvus, loadConfig, ret.
  by rewrite Hm, Hc.
Qed.

Lemma client_ReleaseCollection_run w cl name :
  client_ReleaseCollection (Some cl) name w =
    (Done (on_ReleaseCollection (log w) cl name),
     logged w [evReleaseCollection (log w) cl name]).
Proof. reflexivity. Qed.

Lemma client_HasCollection_run w cl name :
  client_HasCollection (Some cl) name w =
    (Done (on_HasCollection (log w) cl name),
     logged w [evHasCollection (log w) cl name]).
Proof. reflexivity. Qed.

Lemma client_CreateCollection_run w cl schema n level :
  client_CreateCollection (Some cl) schema n level w =
    (Done (on_CreateCollection (log w) cl schema n level),
     logged w [evCreateCollection (log w) cl schema n level]).
Proof. reflexivity. Qed.

Lemma client_CreateIndex_run w cl name field idx async :
  client_CreateIndex (Some cl) name field idx async w =
    (Done (on_CreateIndex (log w) cl name field idx async),
     logged w [evCreateIndex (log w) cl name field idx async]).
Proof. reflexivity. Qed.

Lemma client_Insert_run w cl name part cols :
  client_Insert (Some cl) name part cols w =
    (Done (on_Insert (log w) cl name part cols),
     logged w [evInsert (log w) cl name part cols]).
Proof. reflexivity. Qed.

Lemma client_LoadCollection_run w cl name async :
  client_LoadCollection (Some cl) name async w =
    (Done (on_LoadCollection (log w) cl name async),
     logged w [evLoadCollection (log w) cl name async]).
Proof. reflexivity. Qed.

Lemma client_Search_run w cl name ps expr fs vs vf mt k sp :
  client_Search (Some cl) name ps expr fs vs vf mt k sp w =
    (Done (on_Search (log w) cl name ps expr fs vs vf mt k sp),
     logged w [evSearch (log w) cl name ps expr fs vs vf mt k sp]).
Proof. reflexivity. Qed.

Lemma os_ReadFile_run w filename :
  os_ReadFile filename w =
    (Done (on_ReadFile (log w) filename),
     logged w [evReadFile (log w) filename]).
Proof. reflexivity. Qed.

End Runs.

(** Runs the next statement of a function on a connected receiver. *)
Ltac go_step :=
  first
    [ erewrite bind_done by (eapply m_client_run; eauto using receiver_logged)
    | erewrite bind_done by (eapply m_cfg_run; eauto using receiver_logged)
    | erewrite bind_done by apply client_ReleaseCollection_run
    | erewrite bind_done by apply client_HasCollection_run
    | erewrite bind_done by apply client_CreateCollection_run
    | erewrite bind_done by apply client_CreateIndex_run
    | erewrite bind_done by apply client_Insert_run
    | erewrite bind_done by apply client_LoadCollection_run
    | erewrite bind_done by apply client_Search_run
    | erewrite bind_done by apply os_ReadFile_run ];
  rewrite ?logged_logged; simpl.

Section InsertRuns.
Context {E : Env}.

Lemma Insert_run w m cl c sections :
  receiver w m cl c ->
  Insert m sections w =
    let name := CollectionName c in
    let ev1 := evReleaseCollection (log w) cl name in
    match evErr ev1 with
    | Some e => (Done (Some e), logged w [ev1])
    | None =>
        match entity_NewIndexIvfFlat entity.L2 128 with
        | (_, Some e) => (Done (Some e), logged w [ev1])
        | (idx, None) =>
            let ev2 := evCreateIndex (log w ++ [ev1]) cl name embeddingCol idx false in
            match evErr ev2 with
            | Some e => (Done (Some e), logged w [ev1; ev2])
            | None =>
                let ev3 := evInsert (log w ++ [ev1; ev2]) cl name ""
                             (insertColumns (Dim c) sections) in
                (Done (evErr ev3), logged w [ev1; ev2; ev3])
            end
        end
    end.
Proof.
  intros Hr. unfold Insert.
  do 3 go_step.
  destruct (on_ReleaseCollection (log w) cl (CollectionName c)) as [e|] eqn:H1.
  { reflexivity. }
  go_step.
  destruct (entity_NewIndexIvfFlat entity.L2 128) as [idx [e|]] eqn:H2.
  { reflexivity. }
  do 3 go_step.
  destruct (on_CreateIndex _ cl (CollectionName c) embeddingCol idx false) as [e|] eqn:H3.
  { reflexivity. }
  do 3 go_step.
  unfold ret, evInsert, insertColumns. by destruct (on_Insert _ _ _ _ _).
Qed.

End InsertRuns.

(** ** The loop of Insert *)

Lemma insertLoop_spec (sections : list gptbot.Section) :
  forall (i : Z) (a : InsertArrays),
    insertLoop i sections a =
      {| ids := ids a ++ imap (fun k _ => i + Z.of_nat k) sections;
         titles := titles a ++ map gptbot.Title sections;
         headings := headings a ++ map gptbot.Heading sections;
         contents := contents a ++ map gptbot.Content sections;
         embeddings := embeddings a ++
           map (fun s => map float32_of_float64 (gptbot.Embedding_ s)) sections |}.
Proof.
  induction sections as [|s rest IH]; intros i a; simpl.
  - destruct a; simpl. by rewrite !app_nil_r.
  - rewrite IH; simpl. rewrite <- !app_assoc; simpl.
    f_equal. f_equal. unfold int64_of_int. f_equal; [lia|].
    apply imap_ext. intros k x _. simpl. lia.
Qed.

Lemma insertColumns_spec (dim : Z) (sections : list gptbot.Section) :
  insertColumns dim sections =
    [ entity.NewColumnInt64 idCol (imap (fun k _ => Z.of_nat k) sections);
      entity.NewColumnVarChar titleCol (map gptbot.Title sections);
      entity.NewColumnVarChar headingCol (map gptbot.Heading sections);
      entity.NewColumnVarChar contentCol (map gptbot.Content sections);
      entity.NewColumnFloatVector embeddingCol dim
        (map (fun s => map float32_of_float64 (gptbot.Embedding_ s)) sections) ].
Proof. unfold insertColumns. by rewrite insertLoop_spec. Qed.

Section InsertClaims.
Context {E : Env}.

(** C1. On a connected receiver, for every sequence of sections, Insert
    issues its calls in this order: it releases the collection, creates the
    index returned by NewIndexIvfFlat(L2, 128) on the embedding column, and
    issues one bulk insert of the five columns id, title, heading, content,
    embedding.  Each column has one entry per section; entry i of id is i,
    entries i of title, heading and content are the fields of section i,
    and entry i of embedding is the embedding of section i converted
    element by element to float32.  The calls Insert issues are always an
    initial part of these three; they are all three, and Insert returns what
    the bulk insert answered, when the release, the index descriptor and
    the index creation raise no error. *)
Theorem Insert_steps_in_order (w : World) (m : positive) (cl : client.Client)
    (c : Config) (sections : list gptbot.Section) :
  receiver w m cl c ->
  exists (ids : list Z) (titles headings contents : list string)
         (embeddings : list (list float32)),
    (length ids = length sections /\ length titles = length sections /\
     length headings = length sections /\ length contents = length sections /\
     length embeddings = length sections) /\
    (forall (i : nat) (s : gptbot.Section),
       sections !! i = Some s ->
       ids !! i = Some (Z.of_nat i) /\
       titles !! i = Some (gptbot.Title s) /\
       headings !! i = Some (gptbot.Heading s) /\
       contents !! i = Some (gptbot.Content s) /\
       embeddings !! i = Some (map float32_of_float64 (gptbot.Embedding_ s))) /\
    let name := CollectionName c in
    let idx := fst (entity_NewIndexIvfFlat entity.L2 128) in
    let release := ext.ReleaseCollection cl name in
    let createIndex := ext.CreateIndex cl name "embedding" idx false in
    let insert :=
      ext.Insert cl name ""
        [ entity.NewColumnInt64 "id" ids;
          entity.NewColumnVarChar "title" titles;
          entity.NewColumnVarChar "heading" headings;
          entity.NewColumnVarChar "content" contents;
          entity.NewColumnFloatVector "embedding" (Dim c) embeddings ] in
    exists (out : option error) (evs : list Event),
      Insert m sections w = (Done out, logged w evs) /\
      map evCall evs `prefix_of` [release; createIndex; insert] /\
      (on_ReleaseCollection (log w) cl name = None ->
       snd (entity_NewIndexIvfFlat entity.L2 128) = None ->
       on_CreateIndex (log w ++ [{| evCall := release; evErr := None |}])
         cl name "embedding" idx false = None ->
       map evCall evs = [release; createIndex; insert] /\
       exists ev, last evs = Some ev /\ out = evErr ev).
Proof.
  intros Hr.
  exists (imap (fun k _ => Z.of_nat k) sections),
         (map gptbot.Title sections), (map gptbot.Heading sections),
         (map gptbot.Content sections),
         (map (fun s => map float32_of_float64 (gptbot.Embedding_ s)) sections).
  split; [by rewrite length_imap, !length_map|].
  split.
  { intros i s Hs. rewrite list_lookup_imap, Hs. simpl.
    change (@map) with (@fmap list _).
    by rewrite !list_lookup_fmap, Hs. }
  simpl. rewrite (Insert_run w m cl c sections Hr). simpl.
  rewrite insertColumns_spec.
  unfold evReleaseCollection, evCreateIndex, evInsert; simpl.
  destruct (entity_NewIndexIvfFlat entity.L2 128) as [idx err2]; simpl.
  destruct (on_ReleaseCollection (log w) cl (CollectionName c)) as [e1|] eqn:H1.
  { eexists _, _. split; [reflexivity|]. split; [|done].
    simpl. by eexists. }
  destruct err2 as [e2|].
  { eexists _, _. split; [reflexivity|]. split; [|done].
    simpl. by eexists. }
  destruct (on_CreateIndex _ cl (CollectionName c) embeddingCol idx false)
    as [e3|] eqn:H3.
  { eexists _, _. split; [reflexivity|]. split.
    - simpl. by eexists.
    - intros _ _ H. unfold embeddingCol in H3. congruence. }
  eexists _, _. split; [reflexivity|]. split.
  - simpl. by exists [].
  - intros _ _ _. split; [reflexivity|]. eexists. split; reflexivity.
Qed.

(** C10. If the release of the collection answers an error, or building
    the IVF_FLAT index descriptor fails, or the CreateIndex call answers an
    error, Insert returns that error and the calls it has issued are the
    release alone or the release and the index creation: no bulk insert is
    among them. *)
Theorem Insert_error_before_rows (w : World) (m : positive)
    (cl : client.Client) (c : Config) (sections : list gptbot.Section)
    (e : error) :
  receiver w m cl c ->
  let name := CollectionName c in
  let idx := fst (entity_NewIndexIvfFlat entity.L2 128) in
  let ev1 := evReleaseCollection (log w) cl name in
  let ev2 := evCreateIndex (log w ++ [ev1]) cl name "embedding" idx false in
  (evErr ev1 = Some e \/
   (evErr ev1 = None /\ snd (entity_NewIndexIvfFlat entity.L2 128) = Some e) \/
   (evErr ev1 = None /\ snd (entity_NewIndexIvfFlat entity.L2 128) = None /\
    evErr ev2 = Some e)) ->
  exists evs : list Event,
    Insert m sections w = (Done (Some e), logged w evs) /\
    (evs = [ev1] \/ evs = [ev1; ev2]) /\
    forall ev, ev ∈ evs ->
      forall cl' n p cols, evCall ev <> ext.Insert cl' n p cols.
Proof.
  intros Hr. rewrite (Insert_run w m cl c sections Hr).
  destruct (entity_NewIndexIvfFlat entity.L2 128) as [idx err2].
  cbv zeta. cbn [fst snd]. unfold embeddingCol.
  set (ev1 := evReleaseCollection _ _ _).
  set (ev2 := evCreateIndex _ _ _ _ _ _).
  intros Hfail.
  assert (Hno1 : forall cl' n p cols, evCall ev1 <> ext.Insert cl' n p cols) by done.
  assert (Hno2 : forall cl' n p cols, evCall ev2 <> ext.Insert cl' n p cols) by done.
  destruct Hfail as [H1 | [[H1 H2] | (H1 & H2 & H3)]].
  - rewrite H1. exists [ev1]. split; [done|]. split; [by left|].
    intros ev Hev. apply list_elem_of_singleton in Hev as ->. apply Hno1.
  - rewrite H1, H2. exists [ev1]. split; [done|]. split; [by left|].
    intros ev Hev. apply list_elem_of_singleton in Hev as ->. apply Hno1.
  - rewrite H1, H2, H3. exists [ev1; ev2]. split; [done|]. split; [by right|].
    intros ev Hev. apply elem_of_cons in Hev as [-> | Hev]; [apply Hno1|].
    apply list_elem_of_singleton in Hev as ->. apply Hno2.
Qed.

End InsertClaims.

Lemma readyWorld_receiver :
  receiver readyWorld 1%positive 1%positive (afterInit bareConfig).
Proof.
  exists {| client := Some 1%positive; cfg := 1%positive |}.
  split; [apply lookup_singleton_eq|]. split; [reflexivity|].
  apply lookup_singleton_eq.
Qed.

(** Witness of C1: two sections, every call succeeding. *)
Lemma Insert_steps_in_order_witness :
  exists out evs,
    Insert (E := quietEnv) 1 sampleSections readyWorld
      = (Done out, logged readyWorld evs) /\
    length evs = 3%nat.
Proof.
  destruct (Insert_steps_in_order (E := quietEnv) readyWorld 1%positive 1%positive
              (afterInit bareConfig) sampleSections readyWorld_receiver)
    as (ids & ts & hs & cs & es & _ & _ & out & evs & Hrun & _ & Hall).
  exists out, evs. split; [exact Hrun|].
  destruct Hall as [Hcalls _]; [reflexivity | reflexivity | reflexivity |].
  apply (f_equal length) in Hcalls. rewrite length_map in Hcalls.
  exact Hcalls.
Defined.

(** Witness of C10: the release is refused. *)
Lemma Insert_error_before_rows_witness :
  exists evs,
    Insert (E := releaseRefused) 1 sampleSections readyWorld
      = (Done (Some "collection not loaded"), logged readyWorld evs) /\
    forall ev, ev ∈ evs ->
      forall cl' n p cols, evCall ev <> ext.Insert cl' n p cols.
Proof.
  destruct (Insert_error_before_rows (E := releaseRefused) readyWorld 1%positive 1%positive
              (afterInit bareConfig) sampleSections "collection not loaded"
              readyWorld_receiver (or_introl eq_refl))
    as (evs & Hrun & _ & Hno).
  exists evs. split; [exact Hrun | exact Hno].
Defined.

(** * Reshaping a search result *)

Lemma pickFields_snoc fields f :
  pickFields (fields ++ [f]) = pickField (pickFields fields) f.
Proof. unfold pickFields. by rewrite fold_left_app. Qed.

Lemma lastInt64_snoc name fields f :
  lastInt64 name (fields ++ [f]) =
    match f with
    | entity.OfInt64 c =>
        if String.eqb (entity.i64_name c) name then Some c
        else lastInt64 name fields
    | _ => lastInt64 name fields
    end.
Proof.
  unfold lastInt64. rewrite omap_app. simpl.
  destruct f as [c| |]; simpl; rewrite ?app_nil_r; try done.
  destruct (String.eqb (entity.i64_name c) name); simpl.
  - apply last_snoc.
  - by rewrite app_nil_r.
Qed.

Lemma lastVarChar_snoc name fields f :
  lastVarChar name (fields ++ [f]) =
    match f with
    | entity.OfVarChar c =>
        if String.eqb (entity.vc_name c) name then Some c
        else lastVarChar name fields
    | _ => lastVarChar name fields
    end.
Proof.
  unfold lastVarChar. rewrite omap_app. simpl.
  destruct f as [|c|]; simpl; rewrite ?app_nil_r; try done.
  destruct (String.eqb (entity.vc_name c) name); simpl.
  - apply last_snoc.
  - by rewrite app_nil_r.
Qed.

(** The loop over the fields keeps, for each of the four names, the last
    field of that name having the expected column type. *)
Lemma pickFields_spec (fields : list entity.Column) :
  pickFields fields =
    {| iCol := lastInt64 idCol fields;
       tCol := lastVarChar titleCol fields;
       hCol := lastVarChar headingCol fields;
       cCol := lastVarChar contentCol fields |}.
Proof.
  induction fields as [|f fields IH] using rev_ind; [reflexivity|].
  rewrite pickFields_snoc, IH, lastInt64_snoc, !lastVarChar_snoc.
  unfold pickField. destruct f as [c|c|c]; cbn [entity.Column_Name iCol tCol hCol cCol].
  - destruct (String.eqb (entity.i64_name c) idCol) eqn:H1; [done|].
    by repeat case_match.
  - destruct (String.eqb_spec (entity.vc_name c) idCol) as [H1|H1].
    { rewrite H1. reflexivity. }
    destruct (String.eqb_spec (entity.vc_name c) titleCol) as [H2|H2].
    { rewrite H2. reflexivity. }
    destruct (String.eqb_spec (entity.vc_name c) headingCol) as [H3|H3].
    { rewrite H3. reflexivity. }
    destruct (String.eqb_spec (entity.vc_name c) contentCol) as [H4|H4]; reflexivity.
  - by repeat case_match.
Qed.

Lemma index_of_nat {A} (l : list A) (k : nat) (d : A) :
  index l (Z.of_nat k) =
    if decide (k < length l)%nat then Done (nth k l d)
    else Panic IndexOutOfRange.
Proof.
  unfold index. rewrite Nat2Z.id.
  destruct (Z.ltb_spec (Z.of_nat k) 0) as [?|_]; [lia|]. simpl.
  destruct (Z.leb_spec (Z.of_nat (length l)) (Z.of_nat k)) as [Hle|Hlt];
    case_decide; try lia; [done|].
  rewrite nth_lookup.
  destruct (lookup_lt_is_Some_2 l k) as [x ->]; [lia|]. done.
Qed.

Lemma ColumnInt64_ValueByIdx_of_nat (c : entity.ColumnInt64) (k : nat) :
  entity.ColumnInt64_ValueByIdx (Some c) (Z.of_nat k) =
    if decide (k < length (entity.i64_values c))%nat
    then Done (nth k (entity.i64_values c) 0, None)
    else Done (0, Some "index out of range").
Proof.
  unfold entity.ColumnInt64_ValueByIdx. rewrite Nat2Z.id.
  destruct (Z.ltb_spec (Z.of_nat k) 0) as [?|_]; [lia|]. simpl.
  destruct (Z.leb_spec (Z.of_nat (length (entity.i64_values c))) (Z.of_nat k));
    case_decide; try lia; done.
Qed.

Lemma ColumnVarChar_ValueByIdx_of_nat (c : entity.ColumnVarChar) (k : nat) :
  entity.ColumnVarChar_ValueByIdx (Some c) (Z.of_nat k) =
    if decide (k < length (entity.vc_values c))%nat
    then Done (nth k (entity.vc_values c) "", None)
    else Done ("", Some "index out of range").
Proof.
  unfold entity.ColumnVarChar_ValueByIdx. rewrite Nat2Z.id.
  destruct (Z.ltb_spec (Z.of_nat k) 0) as [?|_]; [lia|]. simpl.
  destruct (Z.leb_spec (Z.of_nat (length (entity.vc_values c))) (Z.of_nat k));
    case_decide; try lia; done.
Qed.

Section Rows.
Variable IntSize : Z.
Variable r : client.SearchResult.

(** One round of the loop over the rows, on columns that are there and
    long enough. *)
Lemma rowsLoop_step n k ic tc hc cc acc :
  (k < length (entity.i64_values ic))%nat ->
  (k < length (entity.vc_values tc))%nat ->
  (k < length (entity.vc_values hc))%nat ->
  (k < length (entity.vc_values cc))%nat ->
  (k < length (client.Scores r))%nat ->
  rowsLoop IntSize (S n) (Z.of_nat k)
    {| iCol := Some ic; tCol := Some tc; hCol := Some hc; cCol := Some cc |}
    r acc =
  rowsLoop IntSize n (Z.of_nat (S k))
    {| iCol := Some ic; tCol := Some tc; hCol := Some hc; cCol := Some cc |}
    r (acc ++ [similarityAt IntSize ic tc hc cc (client.Scores r) k]).
Proof.
  intros H1 H2 H3 H4 H5.
  cbn [rowsLoop iCol tCol hCol cCol].
  rewrite ColumnInt64_ValueByIdx_of_nat, !ColumnVarChar_ValueByIdx_of_nat,
    (index_of_nat _ _ (S754_zero false)).
  rewrite !decide_True by done. cbn [obind fst snd].
  replace (Z.of_nat k + 1) with (Z.of_nat (S k)) by lia.
  reflexivity.
Qed.

Lemma rowsLoop_ok ic tc hc cc n :
  forall k acc,
    (k + n <= length (entity.i64_values ic))%nat ->
    (k + n <= length (entity.vc_values tc))%nat ->
    (k + n <= length (entity.vc_values hc))%nat ->
    (k + n <= length (entity.vc_values cc))%nat ->
    (k + n <= length (client.Scores r))%nat ->
    rowsLoop IntSize n (Z.of_nat k)
      {| iCol := Some ic; tCol := Some tc; hCol := Some hc; cCol := Some cc |}
      r acc =
    Done ((acc ++ map (similarityAt IntSize ic tc hc cc (client.Scores r))
                    (seq k n))%list,
          None).
Proof.
  induction n as [|n IH]; intros k acc H1 H2 H3 H4 H5.
  - simpl. by rewrite app_nil_r.
  - rewrite rowsLoop_step by lia.
    rewrite IH by lia. simpl. by rewrite <- app_assoc.
Qed.

Lemma constructSimilaritiesFromResult_ok ic tc hc cc :
  readable r ic tc hc cc ->
  constructSimilaritiesFromResult IntSize r =
    Done (map (similarityAt IntSize ic tc hc cc (client.Scores r))
            (seq 0 (Z.to_nat (client.ResultCount r))),
          None).
Proof.
  intros (Hi & Ht & Hh & Hc & L1 & L2 & L3 & L4 & L5).
  unfold constructSimilaritiesFromResult.
  rewrite pickFields_spec, Hi, Ht, Hh, Hc.
  change 0 with (Z.of_nat 0).
  by rewrite rowsLoop_ok by lia.
Qed.

(** A round that ends well has read all four columns and the score. *)
Lemma rowsLoop_S_inv n k p acc sims :
  rowsLoop IntSize (S n) (Z.of_nat k) p r acc = Done (sims, None) ->
  exists ic tc hc cc,
    p = {| iCol := Some ic; tCol := Some tc; hCol := Some hc; cCol := Some cc |} /\
    (k < length (entity.i64_values ic))%nat /\
    (k < length (entity.vc_values tc))%nat /\
    (k < length (entity.vc_values hc))%nat /\
    (k < length (entity.vc_values cc))%nat /\
    (k < length (client.Scores r))%nat /\
    rowsLoop IntSize n (Z.of_nat (S k)) p r
      (acc ++ [similarityAt IntSize ic tc hc cc (client.Scores r) k])
    = Done (sims, None).
Proof.
  destruct p as [[ic|] [tc|] [hc|] [cc|]];
    cbn [rowsLoop iCol tCol hCol cCol];
    rewrite ?ColumnInt64_ValueByIdx_of_nat, ?ColumnVarChar_ValueByIdx_of_nat,
      ?(index_of_nat _ _ (S754_zero false));
    repeat (case_decide; cbn [obind fst snd entity.ColumnInt64_ValueByIdx
                              entity.ColumnVarChar_ValueByIdx]);
    try discriminate.
  intros Hrest. exists ic, tc, hc, cc.
  replace (Z.of_nat (S k)) with (Z.of_nat k + 1) by lia.
  by repeat split.
Qed.

Lemma rowsLoop_inv n :
  forall k p acc sims,
    (0 < n)%nat ->
    rowsLoop IntSize n (Z.of_nat k) p r acc = Done (sims, None) ->
    exists ic tc hc cc,
      p = {| iCol := Some ic; tCol := Some tc; hCol := Some hc; cCol := Some cc |} /\
      (k + n <= length (entity.i64_values ic))%nat /\
      (k + n <= length (entity.vc_values tc))%nat /\
      (k + n <= length (entity.vc_values hc))%nat /\
      (k + n <= length (entity.vc_values cc))%nat /\
      (k + n <= length (client.Scores r))%nat.
Proof.
  induction n as [|n IH]; intros k p acc sims Hn Hrun; [lia|].
  apply rowsLoop_S_inv in Hrun
    as (ic & tc & hc & cc & -> & H1 & H2 & H3 & H4 & H5 & Hrest).
  exists ic, tc, hc, cc. split; [done|].
  destruct n as [|n'].
  - repeat split; lia.
  - apply IH in Hrest as (ic' & tc' & hc' & cc' & Heq & ?); [|lia].
    injection Heq as <- <- <- <-. repeat split; lia.
Qed.

End Rows.

(** * Query *)

Section QueryRuns.
Context {E : Env}.
Variable IntSize : Z.

Lemma Query_run w m cl c embedding topK :
  receiver w m cl c ->
  Query IntSize m embedding topK w =
    let name := CollectionName c in
    let ev1 := evLoadCollection (log w) cl name false in
    match evErr ev1 with
    | Some e => (Done ([], Some e), logged w [ev1])
    | None =>
        let answer := searchAnswer (log w ++ [ev1]) cl name embedding topK in
        let ev2 := {| evCall := searchCall cl name embedding topK;
                      evErr := snd answer |} in
        match snd answer with
        | Some e => (Done ([], Some e), logged w [ev1; ev2])
        | None =>
            (obind (index (fst answer) 0)
               (constructSimilaritiesFromResult IntSize),
             logged w [ev1; ev2])
        end
    end.
Proof.
  intros Hr. unfold Query.
  do 3 go_step.
  destruct (on_LoadCollection (log w) cl (CollectionName c) false) as [e|] eqn:H1.
  { reflexivity. }
  unfold searchAnswer, searchCall.
  destruct entity_NewIndexFlatSearchParam as [param perr]. cbn [fst].
  do 3 go_step. unfold evSearch.
  match goal with |- context [on_Search ?h ?a ?b ?c' ?d ?x ?f ?g ?i ?j ?k] =>
    destruct (on_Search h a b c' d x f g i j k) as [results [err|]] eqn:H2
  end; cbn [fst snd].
  { reflexivity. }
  unfold bind, lift, obind.
  destruct (index results 0) as [r0|p]; reflexivity.
Qed.

(** C4. On a connected receiver, for every embedding and every topK, Query
    first loads the collection; if the load answers an error, that error is
    returned and no other call is issued; otherwise Query issues exactly one
    more call, a search with the single vector made of the embedding
    converted element by element to float32, limit topK, on the embedding
    column under the L2 metric, asking for the output fields id, title,
    heading and content. *)
Theorem Query_loads_then_searches (w : World) (m : positive)
    (cl : client.Client) (c : Config) (embedding : gptbot.Embedding)
    (topK : Z) :
  receiver w m cl c ->
  let name := CollectionName c in
  let load := evLoadCollection (log w) cl name false in
  let search :=
    ext.Search cl name [] "" ["id"; "title"; "heading"; "content"]
      [entity.FloatVector (map float32_of_float64 embedding)]
      "embedding" entity.L2 topK (fst entity_NewIndexFlatSearchParam) in
  evCall load = ext.LoadCollection cl name false /\
  (forall e, evErr load = Some e ->
     Query IntSize m embedding topK w = (Done ([], Some e), logged w [load])) /\
  (evErr load = None ->
     exists out ev,
       Query IntSize m embedding topK w = (out, logged w [load; ev]) /\
       evCall ev = search).
Proof.
  intros Hr name load search.
  split; [reflexivity|].
  rewrite (Query_run w m cl c embedding topK Hr). cbv zeta.
  fold name. fold load.
  split.
  - intros e He. by rewrite He.
  - intros He. rewrite He.
    destruct (snd (searchAnswer (log w ++ [load]) cl name embedding topK));
      eexists _, _; (split; [reflexivity|]); reflexivity.
Qed.

End QueryRuns.

(** Witness of C4: the load succeeds and the search is issued. *)
Lemma Query_loads_then_searches_witness :
  exists out ev,
    Query (E := quietEnv) 64 1 [S754_zero false] 5 readyWorld
      = (out, logged readyWorld
                [evLoadCollection (E := quietEnv) [] 1%positive "docs" false; ev]) /\
    evCall ev =
      ext.Search 1%positive "docs" [] "" ["id"; "title"; "heading"; "content"]
        [entity.FloatVector [S754_zero false]] "embedding" entity.L2 5
        (Some entity.IndexFlatSearchParam).
Proof.
  destruct (Query_loads_then_searches (E := quietEnv) 64 readyWorld 1 1%positive
              (afterInit bareConfig) [S754_zero false] 5 readyWorld_receiver)
    as (_ & _ & Hok).
  destruct (Hok eq_refl) as (out & ev & Hrun & Hcall).
  exists out, ev. split; [exact Hrun | exact Hcall].
Defined.

(** On a 64-bit platform the conversion of an int64 to int keeps the
    value. *)
Lemma int_of_int64_64 (v : Z) :
  - 2 ^ 63 <= v < 2 ^ 63 -> int_of_int64 64 v = v.
Proof.
  intros Hv. unfold int_of_int64, wrap.
  change (2 ^ 64) with 18446744073709551616.
  change (2 ^ (64 - 1)) with 9223372036854775808.
  change (2 ^ 63) with 9223372036854775808 in Hv.
  destruct (Z.ltb_spec (v mod 18446744073709551616) 9223372036854775808) as [Hlt|Hge].
  - destruct (Z.le_gt_cases 0 v) as [Hpos|Hneg].
    + apply Z.mod_small. lia.
    + exfalso.
      assert (v mod 18446744073709551616 = v + 18446744073709551616); [|lia].
      symmetry. apply (Z.mod_unique _ _ (-1)); lia.
  - destruct (Z.le_gt_cases 0 v) as [Hpos|Hneg].
    + rewrite Z.mod_small in Hge by lia. lia.
    + assert (v mod 18446744073709551616 = v + 18446744073709551616); [|lia].
      symmetry. apply (Z.mod_unique _ _ (-1)); lia.
Qed.

Section Reshaping.
Context {E : Env}.
Variable IntSize : Z.

Lemma similarityAt_rows (r : client.SearchResult) ic tc hc cc (i : nat) :
  readable r ic tc hc cc ->
  Z.of_nat i < client.ResultCount r ->
  exists sim id title heading content score,
    map (similarityAt IntSize ic tc hc cc (client.Scores r))
      (seq 0 (Z.to_nat (client.ResultCount r))) !! i = Some sim /\
    entity.i64_values ic !! i = Some id /\
    entity.vc_values tc !! i = Some title /\
    entity.vc_values hc !! i = Some heading /\
    entity.vc_values cc !! i = Some content /\
    client.Scores r !! i = Some score /\
    gptbot.Title (gptbot.Section_ sim) = title /\
    gptbot.Heading (gptbot.Section_ sim) = heading /\
    gptbot.Content (gptbot.Section_ sim) = content /\
    gptbot.ID sim = int_of_int64 IntSize id /\
    gptbot.Score sim = float64_of_float32 score.
Proof.
  intros (_ & _ & _ & _ & L1 & L2 & L3 & L4 & L5) Hi.
  destruct (lookup_lt_is_Some_2 (entity.i64_values ic) i) as [id Hid]; [lia|].
  destruct (lookup_lt_is_Some_2 (entity.vc_values tc) i) as [t Ht]; [lia|].
  destruct (lookup_lt_is_Some_2 (entity.vc_values hc) i) as [h Hh]; [lia|].
  destruct (lookup_lt_is_Some_2 (entity.vc_values cc) i) as [ct Hct]; [lia|].
  destruct (lookup_lt_is_Some_2 (client.Scores r) i) as [s Hs]; [lia|].
  exists (similarityAt IntSize ic tc hc cc (client.Scores r) i), id, t, h, ct, s.
  split.
  { change (@map) with (@fmap list _). rewrite list_lookup_fmap.
    rewrite lookup_seq_lt by lia. done. }
  unfold similarityAt; simpl.
  rewrite (nth_lookup_Some _ _ _ _ Hid), (nth_lookup_Some _ _ _ _ Ht),
    (nth_lookup_Some _ _ _ _ Hh), (nth_lookup_Some _ _ _ _ Hct),
    (nth_lookup_Some _ _ _ _ Hs).
  by repeat split.
Qed.

(** C2. When the search answers, without error, a result whose id, title,
    heading and content columns and whose scores hold a value for each of
    its ResultCount rows, Query (through constructSimilaritiesFromResult,
    applied to the first result) returns, with a nil error, a list of
    exactly ResultCount similarities, in row order: the i-th has Title,
    Heading and Content taken from the title, heading and content columns
    at index i, ID the id column's value at index i converted to int, and
    Score the i-th score converted to float64. *)
Theorem Query_reshapes_result (w : World) (m : positive) (cl : client.Client)
    (c : Config) (embedding : gptbot.Embedding) (topK : Z)
    (r : client.SearchResult) (rest : list client.SearchResult)
    (ic : entity.ColumnInt64) (tc hc cc : entity.ColumnVarChar) :
  receiver w m cl c ->
  let name := CollectionName c in
  let load := evLoadCollection (log w) cl name false in
  evErr load = None ->
  searchAnswer (log w ++ [load]) cl name embedding topK = (r :: rest, None) ->
  readable r ic tc hc cc ->
  0 <= client.ResultCount r ->
  exists (sims : list gptbot.Similarity) (w' : World),
    constructSimilaritiesFromResult IntSize r = Done (sims, None) /\
    Query IntSize m embedding topK w = (Done (sims, None), w') /\
    Z.of_nat (length sims) = client.ResultCount r /\
    forall i : nat,
      Z.of_nat i < client.ResultCount r ->
      exists sim id title heading content score,
        sims !! i = Some sim /\
        entity.i64_values ic !! i = Some id /\
        entity.vc_values tc !! i = Some title /\
        entity.vc_values hc !! i = Some heading /\
        entity.vc_values cc !! i = Some content /\
        client.Scores r !! i = Some score /\
        gptbot.Title (gptbot.Section_ sim) = title /\
        gptbot.Heading (gptbot.Section_ sim) = heading /\
        gptbot.Content (gptbot.Section_ sim) = content /\
        gptbot.ID sim = int_of_int64 IntSize id /\
        gptbot.Score sim = float64_of_float32 score.
Proof.
  intros Hr name load Hload Hsearch Hread Hcount.
  eexists _, _. split; [by apply constructSimilaritiesFromResult_ok|].
  split.
  { rewrite (Query_run IntSize w m cl c embedding topK Hr). cbv zeta.
    fold name. fold load. rewrite Hload, Hsearch. cbn [fst snd].
    change (index (r :: rest) 0) with (Done r). cbn [obind].
    by rewrite (constructSimilaritiesFromResult_ok IntSize r ic tc hc cc Hread). }
  split.
  { rewrite length_map, length_seq. lia. }
  intros i Hi. by apply similarityAt_rows.
Qed.

End Reshaping.

Lemma sampleResult_readable :
  readable sampleResult
    {| entity.i64_name := idCol; entity.i64_values := [1; 0] |}
    {| entity.vc_name := titleCol; entity.vc_values := ["Go"; "Go"] |}
    {| entity.vc_name := headingCol; entity.vc_values := ["Maps"; "Slices"] |}
    {| entity.vc_name := contentCol;
       entity.vc_values := ["A map is a hash table.";
                            "A slice is a view of an array."] |}.
Proof. unfold readable. simpl. repeat split; try reflexivity; lia. Qed.

(** Witness of C2: the sample result of two rows. *)
Lemma Query_reshapes_result_witness :
  exists sims w',
    Query (E := quietEnv) 64 1 [S754_zero false] 5 readyWorld
      = (Done (sims, None), w') /\
    length sims = 2%nat.
Proof.
  destruct (Query_reshapes_result (E := quietEnv) 64 readyWorld 1 1%positive
              (afterInit bareConfig) [S754_zero false] 5 sampleResult [] _ _ _ _
              readyWorld_receiver eq_refl eq_refl sampleResult_readable
              ltac:(simpl; lia))
    as (sims & w' & _ & Hrun & Hlen & _).
  exists sims, w'. split; [exact Hrun|].
  apply Nat2Z.inj. exact Hlen.
Defined.

Section ReshapingSafety.
Variable IntSize : Z.

Lemma constructSimilaritiesFromResult_inv (r : client.SearchResult) sims :
  0 < client.ResultCount r ->
  constructSimilaritiesFromResult IntSize r = Done (sims, None) ->
  exists ic tc hc cc, readable r ic tc hc cc.
Proof.
  intros Hn Hrun. unfold constructSimilaritiesFromResult in Hrun.
  change 0 with (Z.of_nat 0) in Hrun.
  apply rowsLoop_inv in Hrun as (ic & tc & hc & cc & Hp & ?); [|lia].
  rewrite pickFields_spec in Hp. injection Hp as H1 H2 H3 H4.
  exists ic, tc, hc, cc. unfold readable. repeat split; try done; lia.
Qed.

Lemma constructSimilaritiesFromResult_nil (r : client.SearchResult) :
  0 < client.ResultCount r ->
  let fields := client.Fields r in
  (lastInt64 idCol fields = None \/
   (exists ic, lastInt64 idCol fields = Some ic /\
               entity.i64_values ic <> [] /\
               (lastVarChar titleCol fields = None \/
                exists tc, lastVarChar titleCol fields = Some tc /\
                           entity.vc_values tc <> [] /\
                           (lastVarChar headingCol fields = None \/
                            exists hc, lastVarChar headingCol fields = Some hc /\
                                       entity.vc_values hc <> [] /\
                                       lastVarChar contentCol fields = None)))) ->
  constructSimilaritiesFromResult IntSize r = Panic NilDereference.
Proof.
  intros Hn fields Hmiss. unfold constructSimilaritiesFromResult.
  rewrite pickFields_spec. fold fields.
  destruct (Z.to_nat (client.ResultCount r)) as [|n] eqn:Hc; [lia|].
  change 0 with (Z.of_nat 0).
  cbn [rowsLoop iCol tCol hCol cCol].
  destruct Hmiss as [-> | (ic & -> & Hic & Hmiss)]; [reflexivity|].
  rewrite ColumnInt64_ValueByIdx_of_nat.
  rewrite decide_True by (destruct (entity.i64_values ic); [done | simpl; lia]).
  cbn [obind fst snd].
  destruct Hmiss as [-> | (tc & -> & Htc & Hmiss)]; [reflexivity|].
  rewrite ColumnVarChar_ValueByIdx_of_nat.
  rewrite decide_True by (destruct (entity.vc_values tc); [done | simpl; lia]).
  cbn [obind fst snd].
  destruct Hmiss as [-> | (hc & -> & Hhc & ->)]; [reflexivity|].
  rewrite ColumnVarChar_ValueByIdx_of_nat.
  rewrite decide_True by (destruct (entity.vc_values hc); [done | simpl; lia]).
  reflexivity.
Qed.

Lemma constructSimilaritiesFromResult_empty (r : client.SearchResult) :
  0 < client.ResultCount r ->
  let fields := client.Fields r in
  ((exists ic, lastInt64 idCol fields = Some ic /\
               entity.i64_values ic = []) \/
   (exists ic, lastInt64 idCol fields = Some ic /\
               entity.i64_values ic <> [] /\
               ((exists tc, lastVarChar titleCol fields = Some tc /\
                            entity.vc_values tc = []) \/
                (exists tc, lastVarChar titleCol fields = Some tc /\
                            entity.vc_values tc <> [] /\
                            ((exists hc, lastVarChar headingCol fields = Some hc /\
                                         entity.vc_values hc = []) \/
                             (exists hc, lastVarChar headingCol fields = Some hc /\
                                         entity.vc_values hc <> [] /\
                                         exists cc,
                                           lastVarChar contentCol fields = Some cc /\
                                           entity.vc_values cc = [])))))) ->
  constructSimilaritiesFromResult IntSize r
    = Done ([], Some "index out of range").
Proof.
  intros Hn fields Hempty. unfold constructSimilaritiesFromResult.
  rewrite pickFields_spec. fold fields.
  destruct (Z.to_nat (client.ResultCount r)) as [|n] eqn:Hc; [lia|].
  change 0 with (Z.of_nat 0).
  cbn [rowsLoop iCol tCol hCol cCol].
  destruct Hempty as [(ic & -> & Hic) | (ic & -> & Hic & Hempty)].
  { rewrite ColumnInt64_ValueByIdx_of_nat, Hic. reflexivity. }
  rewrite ColumnInt64_ValueByIdx_of_nat.
  rewrite decide_True by (destruct (entity.i64_values ic); [done | simpl; lia]).
  cbn [obind fst snd].
  destruct Hempty as [(tc & -> & Htc) | (tc & -> & Htc & Hempty)].
  { rewrite ColumnVarChar_ValueByIdx_of_nat, Htc. reflexivity. }
  rewrite ColumnVarChar_ValueByIdx_of_nat.
  rewrite decide_True by (destruct (entity.vc_values tc); [done | simpl; lia]).
  cbn [obind fst snd].
  destruct Hempty as [(hc & -> & Hhc) | (hc & -> & Hhc & cc & -> & Hcc)].
  { rewrite ColumnVarChar_ValueByIdx_of_nat, Hhc. reflexivity. }
  rewrite ColumnVarChar_ValueByIdx_of_nat.
  rewrite decide_True by (destruct (entity.vc_values hc); [done | simpl; lia]).
  cbn [obind fst snd].
  rewrite ColumnVarChar_ValueByIdx_of_nat, Hcc. reflexivity.
Qed.

(** C9, amended. For each of the names id, title, heading and content the
    reshaping reads the last field of that name that has the expected
    column type (int64 for id, varchar for the others).  If these four
    columns are there and each of them, and the scores, holds at least
    ResultCount values, every per-row lookup succeeds and the function
    returns one similarity per row with no error; when ResultCount is
    positive this condition is also necessary for such a return.  When
    ResultCount is positive, the first row looks the columns up in the
    order id, title, heading, content, and the first of them that is
    missing or empty decides: if it is missing, the lookup dereferences a
    nil column pointer (a panic, not an error); if it is there but empty,
    its lookup returns the index-out-of-range error, and the function
    returns a nil list with that error. *)
Theorem constructSimilarities_precondition (r : client.SearchResult) :
  let fields := client.Fields r in
  let n := client.ResultCount r in
  (forall ic tc hc cc,
     readable r ic tc hc cc ->
     (forall i : Z, 0 <= i < n ->
        (exists v, entity.ColumnInt64_ValueByIdx (lastInt64 idCol fields) i = Done (v, None)) /\
        (exists v, entity.ColumnVarChar_ValueByIdx (lastVarChar titleCol fields) i = Done (v, None)) /\
        (exists v, entity.ColumnVarChar_ValueByIdx (lastVarChar headingCol fields) i = Done (v, None)) /\
        (exists v, entity.ColumnVarChar_ValueByIdx (lastVarChar contentCol fields) i = Done (v, None))) /\
     exists sims,
       constructSimilaritiesFromResult IntSize r = Done (sims, None) /\
       length sims = Z.to_nat n) /\
  (0 < n ->
   forall sims,
     constructSimilaritiesFromResult IntSize r = Done (sims, None) ->
     exists ic tc hc cc, readable r ic tc hc cc) /\
  (0 < n ->
   (lastInt64 idCol fields = None \/
    (exists ic, lastInt64 idCol fields = Some ic /\
                entity.i64_values ic <> [] /\
                (lastVarChar titleCol fields = None \/
                 exists tc, lastVarChar titleCol fields = Some tc /\
                            entity.vc_values tc <> [] /\
                            (lastVarChar headingCol fields = None \/
                             exists hc, lastVarChar headingCol fields = Some hc /\
                                        entity.vc_values hc <> [] /\
                                        lastVarChar contentCol fields = None)))) ->
   constructSimilaritiesFromResult IntSize r = Panic NilDereference) /\
  (0 < n ->
   ((exists ic, lastInt64 idCol fields = Some ic /\
                entity.i64_values ic = []) \/
    (exists ic, lastInt64 idCol fields = Some ic /\
                entity.i64_values ic <> [] /\
                ((exists tc, lastVarChar titleCol fields = Some tc /\
                             entity.vc_values tc = []) \/
                 (exists tc, lastVarChar titleCol fields = Some tc /\
                             entity.vc_values tc <> [] /\
                             ((exists hc, lastVarChar headingCol fields = Some hc /\
                                          entity.vc_values hc = []) \/
                              (exists hc, lastVarChar headingCol fields = Some hc /\
                                          entity.vc_values hc <> [] /\
                                          exists cc,
                                            lastVarChar contentCol fields = Some cc /\
                                            entity.vc_values cc = [])))))) ->
   constructSimilaritiesFromResult IntSize r
     = Done ([], Some "index out of range")).
Proof.
  intros fields n. subst fields n. split; [|split; [|split]].
  - intros ic tc hc cc Hread. split.
    + destruct Hread as (-> & -> & -> & -> & L1 & L2 & L3 & L4 & _).
      intros i Hi.
      rewrite <- (Z2Nat.id i) by lia.
      rewrite ColumnInt64_ValueByIdx_of_nat, !ColumnVarChar_ValueByIdx_of_nat.
      rewrite !decide_True by lia.
      repeat split; by eexists.
    + eexists. split; [by apply constructSimilaritiesFromResult_ok|].
      by rewrite length_map, length_seq.
  - intros Hn sims. by apply constructSimilaritiesFromResult_inv.
  - intros Hn. by apply constructSimilaritiesFromResult_nil.
  - intros Hn. by apply constructSimilaritiesFromResult_empty.
Qed.

End ReshapingSafety.

(** Witness of C9: the sample result is reshaped; a result whose title is
    not a varchar column makes the first row panic; a result whose id
    column is empty makes the first row return the lookup's error. *)
Lemma constructSimilarities_precondition_witness :
  (exists sims,
     constructSimilaritiesFromResult 64 sampleResult = Done (sims, None) /\
     length sims = 2%nat) /\
  constructSimilaritiesFromResult 64 titleMistyped = Panic NilDereference /\
  constructSimilaritiesFromResult 64 onlyEmptyId
    = Done ([], Some "index out of range").
Proof.
  split; [|split].
  - destruct (constructSimilarities_precondition 64 sampleResult) as [Hok _].
    destruct (Hok _ _ _ _ sampleResult_readable) as [_ Hsims].
    exact Hsims.
  - destruct (constructSimilarities_precondition 64 titleMistyped)
      as (_ & _ & Hnil & _).
    apply Hnil; [reflexivity|].
    right. eexists. split; [reflexivity|]. split; [discriminate|].
    left. reflexivity.
  - destruct (constructSimilarities_precondition 64 onlyEmptyId)
      as (_ & _ & _ & Hempty).
    apply Hempty; [reflexivity|].
    left. eexists. split; reflexivity.
Defined.

(** C9 as stated fails.  With the four columns present and long enough but
    no score, the function panics on the first score; with a second, empty
    id column after the first, it returns an error although an id column
    with enough values is among the fields; with the title, heading and
    content columns absent and an empty id column, it returns an error
    where the claim announces a nil dereference. *)
Lemma constructSimilarities_claimed_precondition_fails :
  ((exists ic tc hc cc, claimedPrecondition scoresMissing ic tc hc cc) /\
   constructSimilaritiesFromResult 64 scoresMissing = Panic IndexOutOfRange) /\
  ((exists ic tc hc cc, claimedPrecondition idShadowed ic tc hc cc) /\
   constructSimilaritiesFromResult 64 idShadowed
     = Done ([], Some "index out of range")) /\
  (0 < client.ResultCount onlyEmptyId /\
   (forall tc, entity.OfVarChar tc ∈ client.Fields onlyEmptyId ->
               entity.vc_name tc <> titleCol) /\
   constructSimilaritiesFromResult 64 onlyEmptyId
     = Done ([], Some "index out of range")).
Proof.
  split; [|split].
  - split; [|reflexivity].
    eexists {| entity.i64_name := idCol; entity.i64_values := [7] |},
            {| entity.vc_name := titleCol; entity.vc_values := ["Go"] |},
            {| entity.vc_name := headingCol; entity.vc_values := ["Maps"] |},
            {| entity.vc_name := contentCol;
               entity.vc_values := ["A map is a hash table."] |}.
    unfold claimedPrecondition, scoresMissing; simpl.
    repeat split; try reflexivity; try lia;
      apply list_elem_of_In; simpl; tauto.
  - split; [|reflexivity].
    eexists {| entity.i64_name := idCol; entity.i64_values := [7] |},
            {| entity.vc_name := titleCol; entity.vc_values := ["Go"] |},
            {| entity.vc_name := headingCol; entity.vc_values := ["Maps"] |},
            {| entity.vc_name := contentCol;
               entity.vc_values := ["A map is a hash table."] |}.
    unfold claimedPrecondition, idShadowed; simpl.
    repeat split; try reflexivity; try lia;
      apply list_elem_of_In; simpl; tauto.
  - split; [reflexivity|]. split; [|reflexivity].
    intros tc Hin. apply list_elem_of_In in Hin. simpl in Hin.
    destruct Hin as [Hin | []]. discriminate.
Qed.

(** * NewMilvus *)

Section NewMilvusRuns.
Context {E : Env}.

Lemma allocated_receiver w cfg c cl :
  receiver (allocated w cfg c {| client := Some cl; cfg := cfg |})
    (fresh (dom (milvuses w))) cl (afterInit c).
Proof.
  eexists. split; [apply lookup_insert_eq|]. split; [reflexivity|].
  apply lookup_insert_eq.
Qed.

Lemma createCollectionIfNotExists_run w m cl c :
  receiver w m cl c ->
  createCollectionIfNotExists m w =
    let name := CollectionName c in
    let ev1 := evHasCollection (log w) cl name in
    match on_HasCollection (log w) cl name with
    | (_, Some e) => (Done (Some e), logged w [ev1])
    | (true, None) => (Done None, logged w [ev1])
    | (false, None) =>
        let ev2 := evCreateCollection (log w ++ [ev1]) cl
                     (schemaFor name (Dim c)) 2 entity.ClBounded in
        (Done (evErr ev2), logged w [ev1; ev2])
    end.
Proof.
  intros Hr. unfold createCollectionIfNotExists.
  do 3 go_step.
  destruct (on_HasCollection (log w) cl (CollectionName c)) as [has [e|]] eqn:H1.
  { by destruct has. }
  destruct has; [reflexivity|].
  do 3 go_step.
  rewrite client_CreateCollection_run. by rewrite logged_logged.
Qed.

Lemma NewMilvus_run w cfg c :
  configs w !! cfg = Some c ->
  NewMilvus cfg w =
    let name := CollectionName c in
    let addr := Addr (afterInit c) in
    let ev1 := evNewGrpcClient (log w) addr in
    match on_NewGrpcClient (log w) addr with
    | (_, Some e) => (Done (None, Some e), logged (initialised w cfg c) [ev1])
    | (None, None) =>
        (Panic NilDereference,
         logged (allocated w cfg c {| client := None; cfg := cfg |}) [ev1])
    | (Some cl, None) =>
        let w1 := allocated w cfg c {| client := Some cl; cfg := cfg |} in
        let m := fresh (dom (milvuses w)) in
        let ev2 := evReleaseCollection (log w ++ [ev1]) cl name in
        let ev3 := evHasCollection (log w ++ [ev1; ev2]) cl name in
        match on_HasCollection (log w ++ [ev1; ev2]) cl name with
        | (_, Some e) => (Done (None, Some e), logged w1 [ev1; ev2; ev3])
        | (true, None) => (Done (Some m, None), logged w1 [ev1; ev2; ev3])
        | (false, None) =>
            let ev4 := evCreateCollection (log w ++ [ev1; ev2; ev3]) cl
                         (schemaFor name (Dim (afterInit c))) 2
                         entity.ClBounded in
            match evErr ev4 with
            | Some e => (Done (None, Some e), logged w1 [ev1; ev2; ev3; ev4])
            | None => (Done (Some m, None), logged w1 [ev1; ev2; ev3; ev4])
            end
        end
    end.
Proof.
  intros Hc. unfold NewMilvus.
  erewrite bind_done by (by apply init_run).
  fold (initialised w cfg c).
  erewrite bind_done; cycle 1.
  { unfold loadConfig, initialised; simpl. by rewrite lookup_insert_eq. }
  unfold client_NewGrpcClient.
  erewrite bind_done by reflexivity.
  cbv zeta. unfold evNewGrpcClient, initialised. cbn [log configs milvuses].
  destruct (on_NewGrpcClient (log w) (Addr (afterInit c))) as [ocl [e|]] eqn:H1;
    cbn [fst snd].
  { by destruct ocl. }
  erewrite bind_done by reflexivity.
  destruct ocl as [cl|]; cycle 1.
  { erewrite bind_done by (apply m_client_lookup; apply lookup_insert_eq).
    erewrite bind_done
      by (eapply m_cfg_lookup; [apply lookup_insert_eq | apply lookup_insert_eq]).
    reflexivity. }
  set (ev1 := {| evCall := _; evErr := None |}).
  set (w1 := allocated w cfg c {| client := Some cl; cfg := cfg |}).
  pose proof (allocated_receiver w cfg c cl) as Hr. fold w1 in Hr.
  match goal with |- context [bind _ _ ?w0] => change w0 with (logged w1 [ev1]) end.
  do 3 go_step.
  change (CollectionName c) with (CollectionName (afterInit c)).
  rewrite bind_unfold.
  rewrite (createCollectionIfNotExists_run _ _ cl (afterInit c))
    by eauto using receiver_logged.
  cbv zeta. simpl.
  rewrite <- !app_assoc. simpl.
  destruct (on_HasCollection _ cl (CollectionName c)) as [has [e|]] eqn:H2.
  { destruct has; by rewrite !logged_logged. }
  destruct has.
  { by rewrite !logged_logged. }
  rewrite !logged_logged. simpl.
  destruct (on_CreateCollection _ cl _ 2 entity.ClBounded) as [e|] eqn:H3;
    reflexivity.
Qed.

End NewMilvusRuns.

Lemma schemaFor_fields (name : string) (dim : Z) :
  entity.CollectionName (schemaFor name dim) = name /\
  entity.SchemaAutoID (schemaFor name dim) = false /\
  map (fun f => (entity.Name f, entity.DataType f, entity.PrimaryKey f,
                 entity.AutoID f))
      (entity.Fields (schemaFor name dim)) =
    [ ("id", entity.FieldTypeInt64, true, false);
      ("title", entity.FieldTypeVarChar, false, false);
      ("heading", entity.FieldTypeVarChar, false, false);
      ("content", entity.FieldTypeVarChar, false, false);
      ("embedding", entity.FieldTypeFloatVector, false, false) ] /\
  map entity.TypeParams (entity.Fields (schemaFor name dim)) =
    [ ∅;
      {[ "max_length" := "50" ]};
      {[ "max_length" := "50" ]};
      {[ "max_length" := "5000" ]};
      {[ "dim" := Sprintf_d dim ]} ].
Proof. repeat split. Qed.

Section NewMilvusClaim.
Context {E : Env}.

(** C5. NewMilvus initialises the caller's Config and connects to its
    address; when the connection succeeds it then releases the collection,
    asks whether the collection exists, and creates it only if the answer
    is no: with the schema of five fields (id: int64, primary key, AutoID
    off; title and heading: varchar of max length 50; content: varchar of
    max length 5000; embedding: float vector of dimension Dim), schema-level
    AutoID off, 2 shards and bounded consistency.  When the collection
    exists, no call follows the existence check, so its schema is left as
    it is, and NewMilvus returns the new Milvus.  An error of the existence
    check or of the creation is returned. *)
Theorem NewMilvus_provisions_collection (w : World) (cfg : positive)
    (c : Config) (cl : client.Client) :
  configs w !! cfg = Some c ->
  on_NewGrpcClient (log w) (Addr (afterInit c)) = (Some cl, None) ->
  let name := CollectionName c in
  let dim := Dim (afterInit c) in
  let schema := schemaFor name dim in
  (entity.CollectionName schema = name /\
   entity.SchemaAutoID schema = false /\
   map (fun f => (entity.Name f, entity.DataType f, entity.PrimaryKey f,
                  entity.AutoID f)) (entity.Fields schema) =
     [ ("id", entity.FieldTypeInt64, true, false);
       ("title", entity.FieldTypeVarChar, false, false);
       ("heading", entity.FieldTypeVarChar, false, false);
       ("content", entity.FieldTypeVarChar, false, false);
       ("embedding", entity.FieldTypeFloatVector, false, false) ] /\
   map entity.TypeParams (entity.Fields schema) =
     [ ∅; {[ "max_length" := "50" ]}; {[ "max_length" := "50" ]};
       {[ "max_length" := "5000" ]}; {[ "dim" := Sprintf_d dim ]} ]) /\
  exists out w' (ev1 ev2 ev3 : Event) (tail : list Event),
    NewMilvus cfg w = (Done out, w') /\
    log w' = (log w ++ ev1 :: ev2 :: ev3 :: tail)%list /\
    evCall ev1 = ext.NewGrpcClient (Addr (afterInit c)) /\
    evCall ev2 = ext.ReleaseCollection cl name /\
    evCall ev3 = ext.HasCollection cl name /\
    let answer := on_HasCollection (log w ++ [ev1; ev2]) cl name in
    (forall e, snd answer = Some e -> tail = [] /\ out = (None, Some e)) /\
    (answer = (true, None) ->
     tail = [] /\
     exists m, out = (Some m, None) /\
               milvuses w' !! m = Some {| client := Some cl; cfg := cfg |}) /\
    (answer = (false, None) ->
     exists ev4,
       tail = [ev4] /\
       evCall ev4 = ext.CreateCollection cl schema 2 entity.ClBounded /\
       ((exists e, evErr ev4 = Some e /\ out = (None, Some e)) \/
        (evErr ev4 = None /\
         exists m, out = (Some m, None) /\
                   milvuses w' !! m = Some {| client := Some cl; cfg := cfg |}))).
Proof.
  intros Hc Hconn name dim schema.
  split; [apply schemaFor_fields|].
  rewrite (NewMilvus_run w cfg c Hc). cbv zeta. rewrite Hconn.
  fold name. fold dim. fold schema.
  set (ev1 := evNewGrpcClient _ _).
  set (ev2 := evReleaseCollection _ _ _).
  set (ev3 := evHasCollection _ _ _).
  destruct (on_HasCollection (log w ++ [ev1; ev2]) cl name)
    as [has [e|]] eqn:Hhas.
  { eexists (None, Some e), _, ev1, ev2, ev3, [].
    split; [by destruct has|].
    do 4 (split; [done|]). cbv zeta. rewrite Hhas.
    split; [intros e' [= <-]; done|]. split; intros [=]. }
  destruct has.
  { eexists _, _, ev1, ev2, ev3, []. split; [reflexivity|].
    do 4 (split; [done|]). cbv zeta. rewrite Hhas.
    split; [intros e' [=]|]. split; [|intros [=]].
    intros _. split; [done|].
    eexists. split; [reflexivity|]. simpl. apply lookup_insert_eq. }
  set (ev4 := evCreateCollection _ _ _ _ _).
  destruct (evErr ev4) as [e|] eqn:H4.
  - eexists _, _, ev1, ev2, ev3, [ev4]. split; [reflexivity|].
    do 4 (split; [done|]). cbv zeta. rewrite Hhas.
    split; [intros e' [=]|]. split; [intros [=]|].
    intros _. exists ev4. do 2 (split; [done|]). left. by exists e.
  - eexists _, _, ev1, ev2, ev3, [ev4]. split; [reflexivity|].
    do 4 (split; [done|]). cbv zeta. rewrite Hhas.
    split; [intros e' [=]|]. split; [intros [=]|].
    intros _. exists ev4. do 2 (split; [done|]). right. split; [done|].
    eexists. split; [reflexivity|]. simpl. apply lookup_insert_eq.
Qed.

End NewMilvusClaim.

(** Witness of C5: the collection does not exist and is created. *)
Lemma NewMilvus_provisions_collection_witness :
  exists out w' ev1 ev2 ev3 ev4,
    NewMilvus (E := quietEnv) 1 freshWorld = (Done out, w') /\
    log w' = [ev1; ev2; ev3; ev4] /\
    evCall ev4 =
      ext.CreateCollection 1%positive (schemaFor "docs" 1536) 2 entity.ClBounded.
Proof.
  destruct (NewMilvus_provisions_collection (E := quietEnv) freshWorld 1
              bareConfig 1%positive (lookup_singleton_eq _ _) eq_refl)
    as (_ & out & w' & ev1 & ev2 & ev3 & tail & Hrun & Hlog & _ & _ & _
        & _ & _ & Hnew).
  destruct (Hnew eq_refl) as (ev4 & -> & Hcall & _).
  exists out, w', ev1, ev2, ev3, ev4.
  split; [exact Hrun|]. split; [exact Hlog | exact Hcall].
Defined.

(** * LoadJSON *)

Section LoadJSONClaim.
Context {E : Env}.

(** C6. For every filename, LoadJSON reads that file, parses what it read
    as a JSON array of sections, and goes on exactly as Insert does on the
    parsed sequence.  If the read fails, or the parse fails, LoadJSON
    returns that error, and the read is the only external call it has
    issued: Insert is not called. *)
Theorem LoadJSON_reads_parses_inserts (w : World) (m : positive)
    (filename : string) :
  let read := evReadFile (log w) filename in
  let data := fst (on_ReadFile (log w) filename) in
  let parsed := json_Unmarshal data in
  evCall read = ext.ReadFile filename /\
  (forall e, evErr read = Some e ->
     LoadJSON m filename w = (Done (Some e), logged w [read])) /\
  (evErr read = None ->
   forall e, snd parsed = Some e ->
     LoadJSON m filename w = (Done (Some e), logged w [read])) /\
  (evErr read = None -> snd parsed = None ->
     LoadJSON m filename w = Insert m (fst parsed) (logged w [read])).
Proof.
  intros read data parsed. split; [reflexivity|].
  unfold LoadJSON. rewrite bind_unfold, os_ReadFile_run.
  subst read data parsed. unfold evReadFile. cbn [evErr].
  destruct (on_ReadFile (log w) filename) as [data err]. cbn [fst snd].
  destruct (json_Unmarshal data) as [sections perr]. cbn [fst snd].
  split; [|split].
  - intros e ->. reflexivity.
  - intros -> e ->. reflexivity.
  - intros -> ->. reflexivity.
Qed.

End LoadJSONClaim.

(** Witness of C6: a missing file, then a file holding the two sample
    sections. *)
Lemma LoadJSON_reads_parses_inserts_witness :
  LoadJSON (E := fileMissing) 1 "sections.json" readyWorld
    = (Done (Some "no such file"),
       logged readyWorld [evReadFile (E := fileMissing) [] "sections.json"]) /\
  LoadJSON (E := quietEnv) 1 "sections.json" readyWorld
    = Insert (E := quietEnv) 1 sampleSections
        (logged readyWorld [evReadFile (E := quietEnv) [] "sections.json"]).
Proof.
  split.
  - destruct (LoadJSON_reads_parses_inserts (E := fileMissing) readyWorld 1
                "sections.json") as (_ & Hread & _).
    exact (Hread "no such file" eq_refl).
  - destruct (LoadJSON_reads_parses_inserts (E := quietEnv) readyWorld 1
                "sections.json") as (_ & _ & _ & Hok).
    exact (Hok eq_refl eq_refl).
Defined.

(** * Errors of the client *)

(** Splits [ev ∈ [ev1; ...; evn]] into the [n] cases. *)
Ltac each_event H :=
  repeat (apply elem_of_cons in H as [-> | H]);
  try (by apply elem_of_nil in H).

Section Errors.
Context {E : Env}.

Lemma Insert_returns_errors w m cl c sections :
  receiver w m cl c ->
  exists out evs,
    Insert m sections w = (Done out, logged w evs) /\
    forall ev e, ev ∈ evs -> evErr ev = Some e -> out = Some e.
Proof.
  intros Hr. rewrite (Insert_run w m cl c sections Hr). cbv zeta.
  set (ev1 := evReleaseCollection _ _ _).
  destruct (evErr ev1) as [e1|] eqn:H1.
  { eexists _, _. split; [reflexivity|]. intros ev e Hin He.
    each_event Hin. congruence. }
  destruct (entity_NewIndexIvfFlat entity.L2 128) as [idx [e2|]].
  { eexists _, _. split; [reflexivity|]. intros ev e Hin He.
    each_event Hin. congruence. }
  set (ev2 := evCreateIndex _ _ _ _ _ _).
  destruct (evErr ev2) as [e3|] eqn:H3.
  { eexists _, _. split; [reflexivity|]. intros ev e Hin He.
    each_event Hin; congruence. }
  eexists _, _. split; [reflexivity|]. intros ev e Hin He.
  each_event Hin; congruence.
Qed.

Lemma Query_returns_errors IntSize w m cl c embedding topK :
  receiver w m cl c ->
  exists out evs,
    Query IntSize m embedding topK w = (out, logged w evs) /\
    forall ev e, ev ∈ evs -> evErr ev = Some e -> out = Done ([], Some e).
Proof.
  intros Hr. rewrite (Query_run IntSize w m cl c embedding topK Hr). cbv zeta.
  set (ev1 := evLoadCollection _ _ _ _).
  destruct (evErr ev1) as [e1|] eqn:H1.
  { eexists _, _. split; [reflexivity|]. intros ev e Hin He.
    each_event Hin. congruence. }
  destruct (snd (searchAnswer _ cl _ embedding topK)) as [e2|] eqn:H2.
  { eexists _, _. split; [reflexivity|]. intros ev e Hin He.
    each_event Hin; first [congruence | simpl in He; congruence]. }
  eexists _, _. split; [reflexivity|]. intros ev e Hin He.
  each_event Hin; first [congruence | simpl in He; congruence].
Qed.

Lemma NewMilvus_returns_errors w cfg c :
  configs w !! cfg = Some c ->
  exists out w' evs,
    NewMilvus cfg w = (out, w') /\
    log w' = (log w ++ evs)%list /\
    forall ev e, ev ∈ evs -> evErr ev = Some e ->
      (exists cl n, evCall ev = ext.ReleaseCollection cl n) \/
      out = Done (None, Some e).
Proof.
  intros Hc. rewrite (NewMilvus_run w cfg c Hc). cbv zeta.
  set (ev1 := evNewGrpcClient _ _).
  assert (H1 : evErr ev1 = snd (on_NewGrpcClient (log w) (Addr (afterInit c))))
    by reflexivity.
  destruct (on_NewGrpcClient (log w) (Addr (afterInit c))) as [ocl [e1|]];
    cbn [snd] in H1.
  { eexists _, _, _. split; [by destruct ocl|]. split; [reflexivity|].
    intros ev e Hin He. each_event Hin. right. congruence. }
  destruct ocl as [cl|]; cycle 1.
  { eexists _, _, _. split; [reflexivity|]. split; [reflexivity|].
    intros ev e Hin He. each_event Hin. congruence. }
  set (ev2 := evReleaseCollection _ _ _).
  set (ev3 := evHasCollection _ _ _).
  assert (H3 : evErr ev3 = snd (on_HasCollection (log w ++ [ev1; ev2]) cl
                                  (CollectionName c))) by reflexivity.
  destruct (on_HasCollection (log w ++ [ev1; ev2]) cl (CollectionName c))
    as [has [e3|]]; cbn [snd] in H3.
  { eexists _, _, _. split; [by destruct has|]. split; [reflexivity|].
    intros ev e Hin He. each_event Hin.
    - congruence.
    - left. by eexists _, _.
    - right. congruence. }
  destruct has.
  { eexists _, _, _. split; [reflexivity|]. split; [reflexivity|].
    intros ev e Hin He. each_event Hin.
    - congruence.
    - left. by eexists _, _.
    - congruence. }
  set (ev4 := evCreateCollection _ _ _ _ _).
  destruct (evErr ev4) as [e4|] eqn:H4.
  - eexists _, _, _. split; [reflexivity|]. split; [reflexivity|].
    intros ev e Hin He. each_event Hin.
    + congruence.
    + left. by eexists _, _.
    + congruence.
    + right. congruence.
  - eexists _, _, _. split; [reflexivity|]. split; [reflexivity|].
    intros ev e Hin He. each_event Hin.
    + congruence.
    + left. by eexists _, _.
    + congruence.
    + congruence.
Qed.

(** C3, amended. Every error answered by a client call during Insert or
    Query, and by the connection, the existence check or the creation of
    the collection during NewMilvus, is returned unchanged to the caller:
    the call that answered it is the last one issued and the function
    returns that very error.  The one exception is the release of the
    collection in NewMilvus, whose error is dropped on purpose. *)
Theorem client_errors_are_returned :
  (forall w m cl c sections,
     receiver w m cl c ->
     exists out evs,
       Insert m sections w = (Done out, logged w evs) /\
       forall ev e, ev ∈ evs -> evErr ev = Some e -> out = Some e) /\
  (forall IntSize w m cl c embedding topK,
     receiver w m cl c ->
     exists out evs,
       Query IntSize m embedding topK w = (out, logged w evs) /\
       forall ev e, ev ∈ evs -> evErr ev = Some e -> out = Done ([], Some e)) /\
  (forall w cfg c,
     configs w !! cfg = Some c ->
     exists out w' evs,
       NewMilvus cfg w = (out, w') /\
       log w' = (log w ++ evs)%list /\
       forall ev e, ev ∈ evs -> evErr ev = Some e ->
         (exists cl n, evCall ev = ext.ReleaseCollection cl n) \/
         out = Done (None, Some e)).
Proof.
  split; [|split].
  - intros w m cl c sections Hr. by apply (Insert_returns_errors w m cl c).
  - intros IntSize w m cl c embedding topK Hr.
    by apply (Query_returns_errors IntSize w m cl c).
  - intros w cfg c Hc. by apply (NewMilvus_returns_errors w cfg c).
Qed.

End Errors.

(** Witness of C3: Insert on the connected sample receiver, the release
    being refused. *)
Lemma client_errors_are_returned_witness :
  exists out evs,
    Insert (E := releaseRefused) 1 sampleSections readyWorld
      = (Done out, logged readyWorld evs) /\
    forall ev e, ev ∈ evs -> evErr ev = Some e -> out = Some e.
Proof.
  destruct (client_errors_are_returned (E := releaseRefused)) as [HI _].
  exact (HI readyWorld 1%positive 1%positive (afterInit bareConfig)
           sampleSections readyWorld_receiver).
Defined.

(** C3 as stated fails: NewMilvus drops the error of its release.  The
    release is refused, its error is in the log, and NewMilvus returns a
    Milvus and a nil error. *)
Lemma NewMilvus_discards_release_error :
  exists m w' ev,
    NewMilvus (E := releaseRefused) 1 freshWorld = (Done (Some m, None), w') /\
    ev ∈ log w' /\
    evCall ev = ext.ReleaseCollection 1%positive "docs" /\
    evErr ev = Some "collection not loaded".
Proof.
  rewrite (NewMilvus_run (E := releaseRefused) freshWorld 1 bareConfig
             (lookup_singleton_eq _ _)).
  simpl.
  eexists _, _, {| evCall := ext.ReleaseCollection 1%positive "docs";
                   evErr := Some "collection not loaded" |}.
  split; [reflexivity|]. split; [|done].
  simpl. apply list_elem_of_In. simpl. tauto.
Qed.

(** * Further properties of the package *)

(** ** Config.init *)

Lemma afterInit_idempotent (c : Config) : afterInit (afterInit c) = afterInit c.
Proof.
  unfold afterInit; simpl.
  destruct (String.eqb_spec (Addr c) "") as [Ha|Ha];
    destruct (Z.eqb_spec (Dim c) 0) as [Hd|Hd]; simpl;
    try rewrite (proj2 (String.eqb_neq _ _) Ha);
    try rewrite (proj2 (Z.eqb_neq _ _) Hd); reflexivity.
Qed.

Lemma afterInit_set (c : Config) : Addr (afterInit c) <> "" /\ Dim (afterInit c) <> 0.
Proof.
  unfold afterInit; simpl. split.
  - destruct (String.eqb_spec (Addr c) ""); [discriminate | done].
  - destruct (Z.eqb_spec (Dim c) 0); [discriminate | done].
Qed.

(** X1. After init the Config has a non-empty Addr and a non-zero Dim, and
    running init a second time changes nothing: it ends normally in the
    very same world. *)
Theorem init_idempotent (w : World) (cfg : positive) (c : Config) :
  configs w !! cfg = Some c ->
  let w1 := snd (init cfg w) in
  (exists c1, configs w1 !! cfg = Some c1 /\ Addr c1 <> "" /\ Dim c1 <> 0) /\
  init cfg w1 = (Done tt, w1).
Proof.
  intros Hc. rewrite (init_run w cfg c Hc). cbn [snd]. split.
  - exists (afterInit c). split; [apply lookup_insert_eq | apply afterInit_set].
  - erewrite init_run by apply lookup_insert_eq. simpl.
    by rewrite afterInit_idempotent, insert_insert_eq.
Qed.

(** Witness of X1. *)
Lemma init_idempotent_witness :
  init 1 (snd (init 1 freshWorld)) = (Done tt, snd (init 1 freshWorld)).
Proof.
  exact (proj2 (init_idempotent freshWorld 1 bareConfig (lookup_singleton_eq _ _))).
Defined.

(** ** NewMilvus *)

Section NewMilvusMore.
Context {E : Env}.

Lemma NewMilvus_success (w : World) (cfg : positive) (c : Config) m w1 :
  configs w !! cfg = Some c ->
  NewMilvus cfg w = (Done (Some m, None), w1) ->
  exists cl,
    m = fresh (dom (milvuses w)) /\
    configs w1 = <[cfg := afterInit c]> (configs w) /\
    milvuses w1 = <[m := {| client := Some cl; cfg := cfg |}]> (milvuses w).
Proof.
  intros Hc. rewrite (NewMilvus_run w cfg c Hc). cbv zeta.
  destruct (on_NewGrpcClient (log w) (Addr (afterInit c))) as [[cl|] [e|]];
    try discriminate.
  destruct (on_HasCollection _ cl (CollectionName c)) as [[|] [e|]];
    try discriminate.
  - intros [= <- <-]. by exists cl.
  - destruct (evErr (evCreateCollection _ cl _ 2 entity.ClBounded));
      try discriminate.
    intros [= <- <-]. by exists cl.
Qed.

(** X2. NewMilvus returns either a Milvus and a nil error, or a nil pointer
    and an error, never both and never neither; the only other way it can
    end is the panic on a connection that answered a nil client together
    with a nil error. *)
Theorem NewMilvus_pointer_or_error (w : World) (cfg : positive) (c : Config) :
  configs w !! cfg = Some c ->
  (exists m, fst (NewMilvus cfg w) = Done (Some m, None)) \/
  (exists e, fst (NewMilvus cfg w) = Done (None, Some e)) \/
  (fst (NewMilvus cfg w) = Panic NilDereference /\
   on_NewGrpcClient (log w) (Addr (afterInit c)) = (None, None)).
Proof.
  intros Hc. rewrite (NewMilvus_run w cfg c Hc). cbv zeta.
  destruct (on_NewGrpcClient (log w) (Addr (afterInit c))) as [[cl|] [e|]];
    cbn [fst].
  - right; left. by exists e.
  - destruct (on_HasCollection _ cl (CollectionName c)) as [[|] [e|]];
      cbn [fst].
    + right; left. by exists e.
    + left. by eexists.
    + right; left. by exists e.
    + destruct (evErr (evCreateCollection _ cl _ 2 entity.ClBounded)) as [e|];
        cbn [fst]; [right; left; by exists e | left; by eexists].
  - right; left. by exists e.
  - right; right. done.
Qed.

(** X3. When the connection fails, NewMilvus returns that error after the
    connection attempt alone: no Milvus is allocated and no other call is
    issued, but the caller's Config has already been given its defaults. *)
Theorem NewMilvus_connection_error (w : World) (cfg : positive) (c : Config)
    (e : error) :
  configs w !! cfg = Some c ->
  snd (on_NewGrpcClient (log w) (Addr (afterInit c))) = Some e ->
  exists w',
    NewMilvus cfg w = (Done (None, Some e), w') /\
    log w' = (log w ++ [evNewGrpcClient (log w) (Addr (afterInit c))])%list /\
    milvuses w' = milvuses w /\
    configs w' !! cfg = Some (afterInit c).
Proof.
  intros Hc He. rewrite (NewMilvus_run w cfg c Hc). cbv zeta.
  destruct (on_NewGrpcClient (log w) (Addr (afterInit c))) as [ocl oe].
  simpl in He. subst oe.
  eexists. split; [by destruct ocl|].
  repeat split. simpl. apply lookup_insert_eq.
Qed.

(** X4. The Milvus that NewMilvus returns is newly allocated: its address
    was free before, every Milvus that existed is left as it was, and the
    new one holds the connected client and the caller's own Config pointer,
    so that it is a receiver on which the methods can run. *)
Theorem NewMilvus_returns_fresh_receiver (w : World) (cfg : positive)
    (c : Config) (m : positive) (w1 : World) :
  configs w !! cfg = Some c ->
  NewMilvus cfg w = (Done (Some m, None), w1) ->
  milvuses w !! m = None /\
  (forall m', m' <> m -> milvuses w1 !! m' = milvuses w !! m') /\
  exists cl,
    milvuses w1 !! m = Some {| client := Some cl; cfg := cfg |} /\
    receiver w1 m cl (afterInit c).
Proof.
  intros Hc Hrun.
  destruct (NewMilvus_success w cfg c m w1 Hc Hrun) as (cl & Hm & Hcs & Hms).
  split.
  { rewrite Hm. apply not_elem_of_dom. apply is_fresh. }
  split.
  { intros m' Hne. rewrite Hms. by apply lookup_insert_ne. }
  exists cl. split.
  { rewrite Hms. apply lookup_insert_eq. }
  eexists. split; [rewrite Hms; apply lookup_insert_eq|].
  split; [reflexivity|]. simpl. rewrite Hcs. apply lookup_insert_eq.
Qed.

(** X5. The Milvus keeps the caller's pointer, not a copy of the Config: if
    the Config is overwritten after NewMilvus has returned, Insert on that
    Milvus releases the collection named in the new Config. *)
Theorem Insert_reads_config_at_call (w : World) (cfg : positive) (c : Config)
    (m : positive) (w1 : World) (c2 : Config)
    (sections : list gptbot.Section) :
  configs w !! cfg = Some c ->
  NewMilvus cfg w = (Done (Some m, None), w1) ->
  let w2 := snd (storeConfig cfg c2 w1) in
  exists cl out ev evs,
    Insert m sections w2 = (Done out, logged w2 (ev :: evs)) /\
    evCall ev = ext.ReleaseCollection cl (CollectionName c2).
Proof.
  intros Hc Hrun w2.
  destruct (NewMilvus_success w cfg c m w1 Hc Hrun) as (cl & Hm & Hcs & Hms).
  assert (Hr : receiver w2 m cl c2).
  { subst w2. unfold storeConfig. rewrite Hcs, lookup_insert_eq. cbn [snd].
    eexists. split; [simpl; rewrite Hms; apply lookup_insert_eq|].
    split; [reflexivity|]. simpl. apply lookup_insert_eq. }
  rewrite (Insert_run w2 m cl c2 sections Hr). cbv zeta.
  exists cl.
  destruct (evErr (evReleaseCollection (log w2) cl (CollectionName c2))).
  { by eexists _, _, _. }
  destruct (entity_NewIndexIvfFlat entity.L2 128) as [idx [e|]].
  { by eexists _, _, _. }
  destruct (evErr (evCreateIndex _ cl (CollectionName c2) embeddingCol idx false)).
  { by eexists _, _, _. }
  by eexists _, _, _.
Qed.

End NewMilvusMore.

(** Witness of X2. *)
Lemma NewMilvus_pointer_or_error_witness :
  (exists m, fst (NewMilvus (E := quietEnv) 1 freshWorld) = Done (Some m, None)) \/
  (exists e, fst (NewMilvus (E := quietEnv) 1 freshWorld) = Done (None, Some e)) \/
  (fst (NewMilvus (E := quietEnv) 1 freshWorld) = Panic NilDereference /\
   on_NewGrpcClient (Env := quietEnv) (log freshWorld)
     (Addr (afterInit bareConfig)) = (None, None)).
Proof.
  exact (NewMilvus_pointer_or_error (E := quietEnv) freshWorld 1 bareConfig
           (lookup_singleton_eq _ _)).
Defined.

(** Witness of X3. *)
Lemma NewMilvus_connection_error_witness :
  exists w',
    NewMilvus (E := connectRefused) 1 freshWorld
      = (Done (None, Some "connection refused"), w') /\
    milvuses w' = milvuses freshWorld.
Proof.
  destruct (NewMilvus_connection_error (E := connectRefused) freshWorld 1
              bareConfig "connection refused" (lookup_singleton_eq _ _) eq_refl)
    as (w' & Hrun & _ & Hms & _).
  exists w'. split; [exact Hrun | exact Hms].
Defined.

Lemma NewMilvus_quiet_run :
  NewMilvus (E := quietEnv) 1 freshWorld
    = (Done (Some 1%positive, None), snd (NewMilvus (E := quietEnv) 1 freshWorld)).
Proof. reflexivity. Qed.

(** Witness of X4. *)
Lemma NewMilvus_returns_fresh_receiver_witness :
  milvuses freshWorld !! 1%positive = None /\
  exists cl,
    receiver (snd (NewMilvus (E := quietEnv) 1 freshWorld)) 1 cl
      (afterInit bareConfig).
Proof.
  destruct (NewMilvus_returns_fresh_receiver (E := quietEnv) freshWorld 1
              bareConfig 1 _ (lookup_singleton_eq _ _) NewMilvus_quiet_run)
    as (Hfree & _ & cl & _ & Hr).
  split; [exact Hfree|]. exists cl. exact Hr.
Defined.

(** Witness of X5: the collection is renamed after NewMilvus. *)
Lemma Insert_reads_config_at_call_witness :
  exists cl out ev evs,
    Insert (E := quietEnv) 1 sampleSections
      (snd (storeConfig 1 {| CollectionName := "notes"; Addr := "db:19530";
                             Dim := 3 |}
              (snd (NewMilvus (E := quietEnv) 1 freshWorld))))
      = (Done out,
         logged (snd (storeConfig 1 {| CollectionName := "notes";
                                       Addr := "db:19530"; Dim := 3 |}
                        (snd (NewMilvus (E := quietEnv) 1 freshWorld))))
           (ev :: evs)) /\
    evCall ev = ext.ReleaseCollection cl "notes".
Proof.
  exact (Insert_reads_config_at_call (E := quietEnv) freshWorld 1 bareConfig 1 _
           {| CollectionName := "notes"; Addr := "db:19530"; Dim := 3 |}
           sampleSections (lookup_singleton_eq _ _) NewMilvus_quiet_run).
Defined.

(** ** Broken receivers and repeated calls *)

Section Receivers.
Context {E : Env}.

Lemma receiver_or_not (w : World) (m : positive) :
  (exists cl c, receiver w m cl c) \/
  milvuses w !! m = None \/
  (exists mv, milvuses w !! m = Some mv /\
              (configs w !! cfg mv = None \/ client mv = None)).
Proof.
  destruct (milvuses w !! m) as [mv|] eqn:Hm; [|by right; left].
  destruct (configs w !! cfg mv) as [c|] eqn:Hc; [|right; right; eauto].
  destruct (client mv) as [cl|] eqn:Hcl; [|right; right; eauto].
  left. exists cl, c, mv. done.
Qed.

(** The first statement of Insert and of Query evaluates [m.client] and
    [m.cfg.CollectionName] and calls a method of the client: on a broken
    receiver this panics. *)
Lemma first_call_panics {A B} (w : World) (m : positive)
    (call : option client.Client -> string -> M A) (k : A -> M B) :
  (forall name w', call None name w' = (Panic NilDereference, w')) ->
  ~ (exists cl c, receiver w m cl c) ->
  (let* c := m_client m in
   let* name := m_cfg CollectionName m in
   let* r := call c name in k r) w = (Panic NilDereference, w).
Proof.
  intros Hcall Hno.
  destruct (receiver_or_not w m) as [Hr | [Hm | (mv & Hm & Hbad)]]; [done| |].
  - unfold bind at 1. unfold m_client, bind, loadMilvus. by rewrite Hm.
  - erewrite bind_done by (by apply m_client_lookup).
    destruct (configs w !! cfg mv) as [c|] eqn:Hc.
    + destruct Hbad as [? | Hcl]; [done|].
      erewrite bind_done by (by eapply m_cfg_lookup).
      rewrite Hcl. unfold bind. by rewrite Hcall.
    + unfold bind at 1. unfold m_cfg, bind, loadMilvus, loadConfig.
      by rewrite Hm, Hc.
Qed.

(** X6. On a broken receiver (a nil Milvus pointer, a nil Config pointer
    inside it, or a nil client) Insert and Query panic before any call has
    been issued: the world is left as it was. *)
Theorem broken_receiver_panics_before_any_call (IntSize : Z) (w : World)
    (m : positive) (sections : list gptbot.Section)
    (embedding : gptbot.Embedding) (topK : Z) :
  ~ (exists cl c, receiver w m cl c) ->
  Insert m sections w = (Panic NilDereference, w) /\
  Query IntSize m embedding topK w = (Panic NilDereference, w).
Proof.
  intros Hno. split.
  - unfold Insert. apply first_call_panics; [reflexivity | done].
  - unfold Query.
    apply (first_call_panics w m (fun c name => client_LoadCollection c name false));
      [reflexivity | done].
Qed.

(** X7. LoadJSON on a broken receiver still reads and parses the file
    first: it returns the read or parse error if there is one, and panics,
    with the read already logged, only when both succeed. *)
Theorem LoadJSON_broken_receiver (w : World) (m : positive) (filename : string) :
  ~ (exists cl c, receiver w m cl c) ->
  let read := evReadFile (log w) filename in
  let parsed := json_Unmarshal (fst (on_ReadFile (log w) filename)) in
  LoadJSON m filename w =
    (match evErr read, snd parsed with
     | Some e, _ => Done (Some e)
     | None, Some e => Done (Some e)
     | None, None => Panic NilDereference
     end, logged w [read]).
Proof.
  intros Hno read parsed. subst read parsed.
  unfold LoadJSON. rewrite bind_unfold, os_ReadFile_run.
  unfold evReadFile. cbn [evErr].
  destruct (on_ReadFile (log w) filename) as [data [e|]]; cbn [fst snd].
  { reflexivity. }
  destruct (json_Unmarshal data) as [sections [e|]]; cbn [fst snd].
  { reflexivity. }
  unfold Insert. apply first_call_panics; [reflexivity|].
  intros (cl & c & mv & ? & ? & ?). apply Hno. by exists cl, c, mv.
Qed.

End Receivers.

(** Witness of X6: address 2 holds no Milvus. *)
Lemma broken_receiver_panics_before_any_call_witness :
  Insert (E := quietEnv) 2 sampleSections readyWorld
    = (Panic NilDereference, readyWorld) /\
  Query (E := quietEnv) 64 2 [] 5 readyWorld
    = (Panic NilDereference, readyWorld).
Proof.
  apply (broken_receiver_panics_before_any_call (E := quietEnv)).
  intros (cl & c & mv & Hm & _). vm_compute in Hm. discriminate Hm.
Defined.

(** Witness of X7: the file is missing, so the nil receiver is never
    touched. *)
Lemma LoadJSON_broken_receiver_witness :
  LoadJSON (E := fileMissing) 2 "sections.json" readyWorld
    = (Done (Some "no such file"),
       logged readyWorld [evReadFile (E := fileMissing) [] "sections.json"]).
Proof.
  apply (LoadJSON_broken_receiver (E := fileMissing) readyWorld 2 "sections.json").
  intros (cl & c & mv & Hm & _). vm_compute in Hm. discriminate Hm.
Defined.

(** From two descriptions of the same run, the events logged. *)
Ltac same_log H :=
  apply (f_equal snd) in H; apply (f_equal log) in H; simpl in H;
  rewrite <- ?app_assoc in H; apply app_inv_head in H; subst.

Section ReceiverKept.
Context {E : Env}.

Lemma LoadJSON_on_receiver (w : World) (m : positive) (cl : client.Client)
    (c : Config) (filename : string) :
  receiver w m cl c ->
  exists out evs,
    LoadJSON m filename w = (Done out, logged w evs) /\
    forall ev e, ev ∈ evs -> evErr ev = Some e -> out = Some e.
Proof.
  intros Hr. unfold LoadJSON. rewrite bind_unfold, os_ReadFile_run.
  set (read := evReadFile (log w) filename).
  assert (Hread : evErr read = snd (on_ReadFile (log w) filename)) by reflexivity.
  destruct (on_ReadFile (log w) filename) as [data [e|]]; cbn [snd] in Hread.
  { exists (Some e), [read]. split; [reflexivity|].
    intros ev e' Hin He. each_event Hin. congruence. }
  destruct (json_Unmarshal data) as [sections [e|]].
  { exists (Some e), [read]. split; [reflexivity|].
    intros ev e' Hin He. each_event Hin. congruence. }
  destruct (Insert_returns_errors (logged w [read]) m cl c sections
              (receiver_logged w m cl c [read] Hr))
    as (out & evs & Hrun & Herr).
  exists out, (read :: evs). split.
  { rewrite Hrun. by rewrite logged_logged. }
  intros ev e Hin He. apply elem_of_cons in Hin as [-> | Hin]; [congruence|].
  by apply (Herr ev).
Qed.

(** X8. On a connected receiver Insert and LoadJSON never panic, and after
    Insert, LoadJSON or Query the receiver is still a connected receiver
    with the same client and Config: calls can follow one another. *)
Theorem receiver_survives_calls (IntSize : Z) (w : World) (m : positive)
    (cl : client.Client) (c : Config) (sections : list gptbot.Section)
    (embedding : gptbot.Embedding) (topK : Z) (filename : string) :
  receiver w m cl c ->
  (exists out, fst (Insert m sections w) = Done out) /\
  receiver (snd (Insert m sections w)) m cl c /\
  (exists out, fst (LoadJSON m filename w) = Done out) /\
  receiver (snd (LoadJSON m filename w)) m cl c /\
  receiver (snd (Query IntSize m embedding topK w)) m cl c.
Proof.
  intros Hr.
  destruct (Insert_returns_errors w m cl c sections Hr) as (o1 & e1 & H1 & _).
  destruct (LoadJSON_on_receiver w m cl c filename Hr) as (o2 & e2 & H2 & _).
  destruct (Query_returns_errors IntSize w m cl c embedding topK Hr)
    as (o3 & e3 & H3 & _).
  rewrite H1, H2, H3. cbn [fst snd].
  repeat split; eauto using receiver_logged.
Qed.

(** X9. LoadJSON on a connected receiver returns, unchanged, the error of
    whichever of its calls failed: the file read, or a client call made by
    the Insert it ends with; every call before the failing one succeeded. *)
Theorem LoadJSON_returns_errors (w : World) (m : positive) (cl : client.Client)
    (c : Config) (filename : string) :
  receiver w m cl c ->
  exists out evs,
    LoadJSON m filename w = (Done out, logged w evs) /\
    (forall ev e, ev ∈ evs -> evErr ev = Some e -> out = Some e) /\
    (forall ev e, ev ∈ evs -> evErr ev = Some e -> last evs = Some ev).
Proof.
  intros Hr.
  destruct (LoadJSON_on_receiver w m cl c filename Hr) as (out & evs & Hrun & Herr).
  exists out, evs. split; [done|]. split; [done|].
  revert Hrun. unfold LoadJSON. rewrite bind_unfold, os_ReadFile_run.
  set (read := evReadFile (log w) filename).
  assert (Hread : evErr read = snd (on_ReadFile (log w) filename)) by reflexivity.
  destruct (on_ReadFile (log w) filename) as [data [e|]]; cbn [snd] in Hread.
  { intros Hevs. same_log Hevs.
    intros ev e' Hin _. by each_event Hin. }
  destruct (json_Unmarshal data) as [sections [e|]].
  { intros Hevs. same_log Hevs.
    intros ev e' Hin _. by each_event Hin. }
  rewrite (Insert_run _ m cl c sections (receiver_logged w m cl c [read] Hr)).
  cbv zeta.
  set (ev1 := evReleaseCollection _ _ _).
  destruct (evErr ev1) as [e1|] eqn:H1.
  { intros Hevs. same_log Hevs.
    intros ev e' Hin He. each_event Hin; [congruence | done]. }
  destruct (entity_NewIndexIvfFlat entity.L2 128) as [idx [e2|]].
  { intros Hevs. same_log Hevs.
    intros ev e' Hin He. each_event Hin; congruence. }
  set (ev2 := evCreateIndex _ _ _ _ _ _).
  destruct (evErr ev2) as [e3|] eqn:H3.
  { intros Hevs. same_log Hevs.
    intros ev e' Hin He. each_event Hin; [congruence | congruence | done]. }
  intros Hevs. same_log Hevs.
  intros ev e' Hin He. each_event Hin; [congruence | congruence | congruence | done].
Qed.

End ReceiverKept.

(** Witness of X8. *)
Lemma receiver_survives_calls_witness :
  receiver (snd (Insert (E := quietEnv) 1 sampleSections readyWorld))
    1%positive 1%positive (afterInit bareConfig) /\
  receiver (snd (Query (E := quietEnv) 64 1 [] 5 readyWorld))
    1%positive 1%positive (afterInit bareConfig).
Proof.
  destruct (receiver_survives_calls (E := quietEnv) 64 readyWorld 1 1%positive
              (afterInit bareConfig) sampleSections [] 5 "sections.json"
              readyWorld_receiver)
    as (_ & H1 & _ & _ & H2).
  split; [exact H1 | exact H2].
Defined.

(** Witness of X9: the release inside the Insert is refused. *)
Lemma LoadJSON_returns_errors_witness :
  exists out evs,
    LoadJSON (E := releaseRefused) 1 "sections.json" readyWorld
      = (Done out, logged readyWorld evs) /\
    (forall ev e, ev ∈ evs -> evErr ev = Some e -> out = Some e).
Proof.
  destruct (LoadJSON_returns_errors (E := releaseRefused) readyWorld 1 1%positive
              (afterInit bareConfig) "sections.json" readyWorld_receiver)
    as (out & evs & Hrun & Herr & _).
  exists out, evs. split; [exact Hrun | exact Herr].
Defined.

(** ** How many calls a function can issue *)

Section Appends.

Lemma appends_le {A} (n n' : nat) (c : M A) :
  appends n c -> (n <= n')%nat -> appends n' c.
Proof.
  intros Hc Hle w. destruct (Hc w) as (evs & Hlog & Hlen).
  exists evs. split; [done | lia].
Qed.

Lemma appends_silent {A} (c : M A) : keeps log c -> appends 0 c.
Proof. intros Hk w. exists []. by rewrite Hk, app_nil_r. Qed.

Lemma appends_bind {A B} (n k : nat) (c : M A) (f : A -> M B) :
  appends n c -> (forall a, appends k (f a)) -> appends (n + k) (bind c f).
Proof.
  intros Hc Hf w. unfold bind.
  destruct (Hc w) as (evs & Hlog & Hlen).
  destruct (c w) as [[a|p] w1]; simpl in *.
  - destruct (Hf a w1) as (evs' & Hlog' & Hlen').
    exists (evs ++ evs')%list. rewrite Hlog', Hlog, length_app, app_assoc.
    split; [done | lia].
  - exists evs. split; [done | lia].
Qed.

Lemma appends_perform {R} c (answer : list Event -> R * option error) :
  appends 1 (perform c answer).
Proof. intros w. by eexists [_]. Qed.

Lemma appends_match_err {A} (n : nat) (o : option error) (c1 : error -> M A)
    (c2 : M A) :
  (forall e, appends n (c1 e)) -> appends n c2 ->
  appends n (match o with Some e => c1 e | None => c2 end).
Proof. by destruct o. Qed.

End Appends.

(** Bounds the calls of a computation built from [bind], branches and the
    primitives, given the bound for each [bind]. *)
Ltac silent :=
  apply appends_silent;
  unfold m_client, m_cfg, init; keeps_tac.
Ltac one_call :=
  apply (appends_bind 0 1); [by silent | intros ?];
  first [ apply appends_perform
        | eapply appends_le;
          [apply (appends_bind 1 0); [apply appends_perform | intros ?; by silent]
          | lia] ].

Section CallBounds.
Context {E : Env}.

Lemma appends_client_ReleaseCollection c name :
  appends 1 (client_ReleaseCollection c name).
Proof. unfold client_ReleaseCollection. one_call. Qed.

Lemma appends_client_HasCollection c name :
  appends 1 (client_HasCollection c name).
Proof. unfold client_HasCollection. one_call. Qed.

Lemma appends_client_CreateCollection c schema n level :
  appends 1 (client_CreateCollection c schema n level).
Proof. unfold client_CreateCollection. one_call. Qed.

Lemma appends_client_CreateIndex c name field idx async :
  appends 1 (client_CreateIndex c name field idx async).
Proof. unfold client_CreateIndex. one_call. Qed.

Lemma appends_client_Insert c name part cols :
  appends 1 (client_Insert c name part cols).
Proof. unfold client_Insert. one_call. Qed.

Lemma appends_client_LoadCollection c name async :
  appends 1 (client_LoadCollection c name async).
Proof. unfold client_LoadCollection. one_call. Qed.

Lemma appends_client_Search c name ps expr fs vs vf mt k sp :
  appends 1 (client_Search c name ps expr fs vs vf mt k sp).
Proof. unfold client_Search. one_call. Qed.

(** [m.client], [m.cfg.f], then the call [c], then [k]. *)
Lemma appends_method {A B C} (n : nat) (f : Config -> C) (m : positive)
    (call : option client.Client -> C -> M A) (k : A -> M B) :
  (forall c x, appends 1 (call c x)) ->
  (forall a, appends n (k a)) ->
  appends (S n) (let* c := m_client m in
                 let* x := m_cfg f m in
                 let* r := call c x in k r).
Proof.
  intros Hcall Hk.
  apply (appends_bind 0 (S n)); [by silent | intros c].
  apply (appends_bind 0 (S n)); [by silent | intros x].
  by apply (appends_bind 1 n).
Qed.

Lemma appends_Insert m sections : appends 3 (Insert m sections).
Proof.
  unfold Insert.
  apply (appends_method 2 CollectionName m client_ReleaseCollection);
    [apply appends_client_ReleaseCollection | intros err].
  apply appends_match_err; [intros e; apply appends_le with 0%nat; [by silent | lia]|].
  apply (appends_bind 0 2); [by silent | intros dim].
  destruct (entity_NewIndexIvfFlat entity.L2 128) as [idx [e|]].
  { apply appends_le with 0%nat; [by silent | lia]. }
  apply (appends_method 1 CollectionName m
           (fun c name => client_CreateIndex c name embeddingCol idx false));
    [intros; apply appends_client_CreateIndex | intros err2].
  apply appends_match_err; [intros e; apply appends_le with 0%nat; [by silent | lia]|].
  apply (appends_method 0 CollectionName m
           (fun c name => client_Insert c name "" _));
    [intros; apply appends_client_Insert | intros [col err3]].
  by silent.
Qed.

Lemma appends_Query IntSize m embedding topK :
  appends 2 (Query IntSize m embedding topK).
Proof.
  unfold Query.
  apply (appends_method 1 CollectionName m
           (fun c name => client_LoadCollection c name false));
    [intros; apply appends_client_LoadCollection | intros err].
  apply appends_match_err; [intros e; apply appends_le with 0%nat; [by silent | lia]|].
  destruct entity_NewIndexFlatSearchParam as [param perr].
  apply (appends_method 0 CollectionName m
           (fun c name => client_Search c name [] "" _ _ embeddingCol entity.L2
                            topK param));
    [intros; apply appends_client_Search | intros [result err2]].
  by silent.
Qed.

Lemma appends_LoadJSON m filename : appends 4 (LoadJSON m filename).
Proof.
  unfold LoadJSON.
  apply (appends_bind 1 3); [apply appends_perform | intros [data err]].
  apply appends_match_err; [intros e; apply appends_le with 0%nat; [by silent | lia]|].
  destruct (json_Unmarshal data) as [sections [e|]].
  - apply appends_le with 0%nat; [by silent | lia].
  - apply appends_Insert.
Qed.

Lemma appends_createCollectionIfNotExists m :
  appends 2 (createCollectionIfNotExists m).
Proof.
  unfold createCollectionIfNotExists.
  apply (appends_method 1 CollectionName m client_HasCollection);
    [apply appends_client_HasCollection | intros [has err]].
  apply appends_match_err; [intros e; apply appends_le with 0%nat; [by silent | lia]|].
  destruct has; [apply appends_le with 0%nat; [by silent | lia]|].
  apply (appends_bind 0 1); [by silent | intros name].
  apply (appends_bind 0 1); [by silent | intros dim].
  apply (appends_bind 0 1); [by silent | intros c].
  apply appends_client_CreateCollection.
Qed.

Lemma keeps_log_newMilvus v : keeps log (newMilvus v).
Proof. by intros w. Qed.

Lemma appends_NewMilvus cfg : appends 4 (NewMilvus cfg).
Proof.
  unfold NewMilvus.
  apply (appends_bind 0 4); [by silent | intros _].
  apply (appends_bind 0 4); [by silent | intros c0].
  apply (appends_bind 1 3); [apply appends_perform | intros [c err]].
  apply appends_match_err; [intros e; apply appends_le with 0%nat; [by silent | lia]|].
  apply (appends_bind 0 3);
    [apply appends_silent, keeps_log_newMilvus | intros m].
  apply (appends_method 2 CollectionName m client_ReleaseCollection);
    [apply appends_client_ReleaseCollection | intros _].
  apply (appends_bind 2 0);
    [apply appends_createCollectionIfNotExists | intros err2].
  apply appends_match_err; [intros e|]; by silent.
Qed.

(** X10. Whatever the world and the environment, and however the call
    ends, a function only adds calls at the end of the log: Insert at most
    three, Query at most two, LoadJSON at most four and NewMilvus at most
    four: there is no loop that retries a call. *)
Theorem calls_are_bounded (IntSize : Z) (m cfg : positive)
    (sections : list gptbot.Section) (embedding : gptbot.Embedding)
    (topK : Z) (filename : string) (w : World) :
  (exists evs, log (snd (Insert m sections w)) = (log w ++ evs)%list /\
               (length evs <= 3)%nat) /\
  (exists evs, log (snd (Query IntSize m embedding topK w)) = (log w ++ evs)%list /\
               (length evs <= 2)%nat) /\
  (exists evs, log (snd (LoadJSON m filename w)) = (log w ++ evs)%list /\
               (length evs <= 4)%nat) /\
  (exists evs, log (snd (NewMilvus cfg w)) = (log w ++ evs)%list /\
               (length evs <= 4)%nat).
Proof.
  split; [|split; [|split]].
  - apply appends_Insert.
  - apply appends_Query.
  - apply appends_LoadJSON.
  - apply appends_NewMilvus.
Qed.

End CallBounds.

(** ** What the reshaping returns, in general *)

Section Shape.
Variable IntSize : Z.
Variable r : client.SearchResult.

Lemma rowsLoop_shape (n : nat) :
  forall (i : Z) (p : ResultCols) (acc sims : list gptbot.Similarity)
         (err : option error),
    Forall (fun s => gptbot.Embedding_ (gptbot.Section_ s) = []) acc ->
    rowsLoop IntSize n i p r acc = Done (sims, err) ->
    (err = None /\ length sims = (length acc + n)%nat /\
     Forall (fun s => gptbot.Embedding_ (gptbot.Section_ s) = []) sims) \/
    (exists e, err = Some e /\ sims = []).
Proof.
  induction n as [|n IH]; intros i p acc sims err Hacc.
  - simpl. intros [= <- <-]. left. split; [done|]. split; [lia | done].
  - cbn [rowsLoop].
    destruct (entity.ColumnInt64_ValueByIdx (iCol p) i) as [[v1 [e1|]]|p1];
      cbn [obind fst snd]; [intros [= <- <-]; right; eauto | | discriminate].
    destruct (entity.ColumnVarChar_ValueByIdx (tCol p) i) as [[v2 [e2|]]|p2];
      cbn [obind fst snd]; [intros [= <- <-]; right; eauto | | discriminate].
    destruct (entity.ColumnVarChar_ValueByIdx (hCol p) i) as [[v3 [e3|]]|p3];
      cbn [obind fst snd]; [intros [= <- <-]; right; eauto | | discriminate].
    destruct (entity.ColumnVarChar_ValueByIdx (cCol p) i) as [[v4 [e4|]]|p4];
      cbn [obind fst snd]; [intros [= <- <-]; right; eauto | | discriminate].
    destruct (index (client.Scores r) i) as [score|p5];
      cbn [obind]; [|discriminate].
    intros Hrun. apply IH in Hrun.
    + destruct Hrun as [(-> & Hlen & Hall) | Herr]; [left | by right].
      split; [done|]. split; [|done].
      rewrite Hlen, length_app. simpl. lia.
    + apply Forall_app. split; [done|]. by apply Forall_singleton.
Qed.

(** X11. Whatever the result holds, when constructSimilaritiesFromResult
    returns it returns either no error and exactly one similarity per row
    (none when ResultCount is not positive), or an error and a nil list:
    the rows built before a failing lookup are dropped. *)
Theorem constructSimilarities_all_or_nothing :
  match constructSimilaritiesFromResult IntSize r with
  | Done (sims, None) => length sims = Z.to_nat (client.ResultCount r)
  | Done (sims, Some e) => sims = []
  | Panic _ => True
  end.
Proof.
  unfold constructSimilaritiesFromResult.
  destruct (rowsLoop IntSize _ 0 _ r []) as [[sims err]|p] eqn:Hrun; [|done].
  apply rowsLoop_shape in Hrun; [|done].
  destruct Hrun as [(-> & Hlen & _) | (e & -> & ->)]; done.
Qed.

(** X12. The similarities that constructSimilaritiesFromResult returns
    never carry an embedding: the Embedding of each returned Section is
    empty, whatever columns the result holds. *)
Theorem constructSimilarities_no_embedding (sims : list gptbot.Similarity)
    (err : option error) :
  constructSimilaritiesFromResult IntSize r = Done (sims, err) ->
  forall s, s ∈ sims -> gptbot.Embedding_ (gptbot.Section_ s) = [].
Proof.
  unfold constructSimilaritiesFromResult. intros Hrun s Hs.
  apply rowsLoop_shape in Hrun; [|done].
  destruct Hrun as [(_ & _ & Hall) | (e & _ & ->)].
  - rewrite Forall_forall in Hall. by apply Hall.
  - by apply elem_of_nil in Hs.
Qed.

End Shape.

(** Witness of X12: the two rows of the sample result. *)
Lemma constructSimilarities_no_embedding_witness :
  Forall (fun s => gptbot.Embedding_ (gptbot.Section_ s) = [])
    [ {| gptbot.Section_ :=
           {| gptbot.Title := "Go"; gptbot.Heading := "Maps";
              gptbot.Content := "A map is a hash table.";
              gptbot.Embedding_ := [] |};
         gptbot.ID := 1;
         gptbot.Score := S754_finite false 1 (-2) |};
      {| gptbot.Section_ :=
           {| gptbot.Title := "Go"; gptbot.Heading := "Slices";
              gptbot.Content := "A slice is a view of an array.";
              gptbot.Embedding_ := [] |};
         gptbot.ID := 0;
         gptbot.Score := S754_finite false 3 (-1) |} ].
Proof.
  apply Forall_forall.
  exact (constructSimilarities_no_embedding 64 sampleResult _ None
           constructSimilaritiesFromResult_sample).
Defined.

Section FirstResult.
Context {E : Env}.
Variable IntSize : Z.

(** X13. Query reshapes only the first result of the search: with no
    result at all (and no error) it panics on the index, after the load and
    the search have been issued; with a first result of no rows it returns
    an empty list and a nil error, whatever columns that result holds. *)
Theorem Query_uses_first_result (w : World) (m : positive) (cl : client.Client)
    (c : Config) (embedding : gptbot.Embedding) (topK : Z)
    (results : list client.SearchResult) :
  receiver w m cl c ->
  let load := evLoadCollection (log w) cl (CollectionName c) false in
  evErr load = None ->
  searchAnswer (log w ++ [load]) cl (CollectionName c) embedding topK
    = (results, None) ->
  exists ev,
    Query IntSize m embedding topK w =
      (match results with
       | [] => Panic IndexOutOfRange
       | r :: _ => constructSimilaritiesFromResult IntSize r
       end, logged w [load; ev]) /\
    evCall ev = searchCall cl (CollectionName c) embedding topK /\
    (forall r rest, results = r :: rest -> client.ResultCount r <= 0 ->
       fst (Query IntSize m embedding topK w) = Done ([], None)).
Proof.
  intros Hr load Hload Hsearch.
  rewrite (Query_run IntSize w m cl c embedding topK Hr). cbv zeta.
  fold load. rewrite Hload, Hsearch. cbn [fst snd].
  exists {| evCall := searchCall cl (CollectionName c) embedding topK;
            evErr := None |}.
  split; [|split; [reflexivity|]].
  - by destruct results.
  - intros r0 rest -> Hn. cbn [fst]. change (index (r0 :: rest) 0) with (Done r0).
    cbn [obind]. unfold constructSimilaritiesFromResult.
    by replace (Z.to_nat (client.ResultCount r0)) with 0%nat by lia.
Qed.

End FirstResult.

(** Witness of X13: the search finds nothing and returns no result. *)
Lemma Query_uses_first_result_witness :
  fst (Query (E := searchEmpty) 64 1 [] 5 readyWorld) = Panic IndexOutOfRange.
Proof.
  destruct (Query_uses_first_result (E := searchEmpty) 64 readyWorld 1 1%positive
              (afterInit bareConfig) [] 5 [] readyWorld_receiver eq_refl eq_refl)
    as (ev & Hrun & _).
  rewrite Hrun. reflexivity.
Defined.

Section ShortColumn.
Variable IntSize : Z.
Variable r : client.SearchResult.

Lemma rowsLoop_prefix ic tc hc cc (j : nat) :
  forall n k acc,
    (k + j <= length (entity.i64_values ic))%nat ->
    (k + j <= length (entity.vc_values tc))%nat ->
    (k + j <= length (entity.vc_values hc))%nat ->
    (k + j <= length (entity.vc_values cc))%nat ->
    (k + j <= length (client.Scores r))%nat ->
    rowsLoop IntSize (j + n) (Z.of_nat k)
      {| iCol := Some ic; tCol := Some tc; hCol := Some hc; cCol := Some cc |}
      r acc =
    rowsLoop IntSize n (Z.of_nat (k + j))
      {| iCol := Some ic; tCol := Some tc; hCol := Some hc; cCol := Some cc |}
      r (acc ++ map (similarityAt IntSize ic tc hc cc (client.Scores r)) (seq k j)).
Proof.
  induction j as [|j IH]; intros n k acc H1 H2 H3 H4 H5.
  - rewrite Nat.add_0_r. cbn [Nat.add seq map]. rewrite app_nil_r. reflexivity.
  - change (S j + n)%nat with (S (j + n)).
    rewrite rowsLoop_step by lia.
    rewrite IH by lia. cbn [seq map]. rewrite <- app_assoc.
    replace (S k + j)%nat with (k + S j)%nat by lia. reflexivity.
Qed.

(** X14. When the four columns are there but the shortest of them holds
    fewer values than ResultCount (and there is a score for each of the rows
    it does hold), constructSimilaritiesFromResult returns a nil list and
    the lookup's "index out of range" error: the complete rows before the
    gap are not returned. *)
Theorem constructSimilarities_short_column ic tc hc cc (k : nat) :
  lastInt64 idCol (client.Fields r) = Some ic ->
  lastVarChar titleCol (client.Fields r) = Some tc ->
  lastVarChar headingCol (client.Fields r) = Some hc ->
  lastVarChar contentCol (client.Fields r) = Some cc ->
  (k <= length (entity.i64_values ic))%nat ->
  (k <= length (entity.vc_values tc))%nat ->
  (k <= length (entity.vc_values hc))%nat ->
  (k <= length (entity.vc_values cc))%nat ->
  (k = length (entity.i64_values ic) \/ k = length (entity.vc_values tc) \/
   k = length (entity.vc_values hc) \/ k = length (entity.vc_values cc)) ->
  Z.of_nat k < client.ResultCount r ->
  (k <= length (client.Scores r))%nat ->
  constructSimilaritiesFromResult IntSize r
    = Done ([], Some "index out of range").
Proof.
  intros Hi Ht Hh Hc L1 L2 L3 L4 Hmin Hk L5.
  unfold constructSimilaritiesFromResult.
  rewrite pickFields_spec, Hi, Ht, Hh, Hc.
  destruct (Z.to_nat (client.ResultCount r) - k)%nat as [|n] eqn:Hn; [lia|].
  replace (Z.to_nat (client.ResultCount r)) with (k + S n)%nat by lia.
  change 0 with (Z.of_nat 0).
  rewrite rowsLoop_prefix by (simpl; lia).
  cbn [rowsLoop iCol tCol hCol cCol Nat.add].
  rewrite ColumnInt64_ValueByIdx_of_nat, !ColumnVarChar_ValueByIdx_of_nat.
  repeat (case_decide; cbn [obind fst snd]); try reflexivity.
  lia.
Qed.

End ShortColumn.

(** Witness of X14: the title column stops after the first row. *)
Lemma constructSimilarities_short_column_witness :
  constructSimilaritiesFromResult 64 titleShort
    = Done ([], Some "index out of range").
Proof.
  apply (constructSimilarities_short_column 64 titleShort
           {| entity.i64_name := idCol; entity.i64_values := [1; 0] |}
           {| entity.vc_name := titleCol; entity.vc_values := ["Go"] |}
           {| entity.vc_name := headingCol; entity.vc_values := ["Maps"; "Slices"] |}
           {| entity.vc_name := contentCol;
              entity.vc_values := ["A map is a hash table.";
                                   "A slice is a view of an array."] |}
           1%nat);
    try reflexivity; simpl; lia.
Defined.

(** ** Which fields the reshaping looks at *)

Section Selection.
Context {A : Type} (g : entity.Column -> option A).

(** A selector that accepts only fields of one name. *)
Hypothesis g_one_name :
  forall x y a b, g x = Some a -> g y = Some b ->
                  entity.Column_Name x = entity.Column_Name y.

Lemma names_inj (fields : list entity.Column) x y :
  NoDup (map entity.Column_Name fields) ->
  x ∈ fields -> y ∈ fields ->
  entity.Column_Name x = entity.Column_Name y -> x = y.
Proof.
  induction fields as [|f fields IH]; simpl; intros Hnd Hx Hy Hname.
  - by apply elem_of_nil in Hx.
  - apply NoDup_cons in Hnd as [Hf Hnd].
    assert (Hin : forall z, z ∈ fields ->
                    entity.Column_Name z ∈ map entity.Column_Name fields).
    { intros z Hz. change (@map) with (@fmap list _).
      by apply list_elem_of_fmap_2. }
    apply elem_of_cons in Hx as [-> | Hx]; apply elem_of_cons in Hy as [-> | Hy].
    + done.
    + exfalso. apply Hf. rewrite Hname. by apply Hin.
    + exfalso. apply Hf. rewrite <- Hname. by apply Hin.
    + by apply IH.
Qed.

Lemma selected_unique (fields : list entity.Column) a b :
  NoDup (map entity.Column_Name fields) ->
  a ∈ omap g fields -> b ∈ omap g fields -> a = b.
Proof.
  intros Hnd Ha Hb.
  apply list_elem_of_omap in Ha as (x & Hx & Hgx).
  apply list_elem_of_omap in Hb as (y & Hy & Hgy).
  assert (x = y) as ->.
  { apply (names_inj fields); try done. by eapply g_one_name. }
  congruence.
Qed.

Lemma last_omap_Permutation (fields fields' : list entity.Column) :
  NoDup (map entity.Column_Name fields) ->
  Permutation fields fields' ->
  last (omap g fields) = last (omap g fields').
Proof.
  intros Hnd Hperm.
  assert (Hsame : forall a, a ∈ omap g fields <-> a ∈ omap g fields').
  { intros a. rewrite !list_elem_of_omap.
    split; intros (x & Hx & Hg); exists x; split; try done.
    - by rewrite <- Hperm.
    - by rewrite Hperm. }
  destruct (last (omap g fields)) as [a|] eqn:Ha.
  - apply last_Some_elem_of in Ha as Hin. apply Hsame in Hin.
    destruct (last (omap g fields')) as [b|] eqn:Hb.
    + f_equal. apply last_Some_elem_of in Hb. apply Hsame in Hb.
      apply last_Some_elem_of in Ha.
      by apply (selected_unique fields).
    + apply last_None in Hb. rewrite Hb in Hin. by apply elem_of_nil in Hin.
  - apply last_None in Ha.
    destruct (last (omap g fields')) as [b|] eqn:Hb; [|done].
    apply last_Some_elem_of in Hb. apply Hsame in Hb.
    rewrite Ha in Hb. by apply elem_of_nil in Hb.
Qed.

End Selection.

Lemma pickFields_Permutation (fields fields' : list entity.Column) :
  NoDup (map entity.Column_Name fields) ->
  Permutation fields fields' ->
  pickFields fields = pickFields fields'.
Proof.
  intros Hnd Hperm. rewrite !pickFields_spec.
  unfold lastInt64, lastVarChar.
  f_equal; apply last_omap_Permutation; try done.
  all: intros [x| |] [y| |] a b; try discriminate; simpl;
    repeat case_match; try discriminate; intros _ _;
    repeat match goal with
           | H : String.eqb _ _ = true |- _ => apply String.eqb_eq in H
           end; congruence.
Qed.

(** The loop over the rows reads the result only through its scores. *)
Lemma rowsLoop_scores (IntSize : Z) (r r' : client.SearchResult) :
  client.Scores r = client.Scores r' ->
  forall n i p acc,
    rowsLoop IntSize n i p r acc = rowsLoop IntSize n i p r' acc.
Proof.
  intros Hs n. induction n as [|n IH]; intros i p acc; [reflexivity|].
  cbn [rowsLoop]. rewrite Hs.
  destruct (entity.ColumnInt64_ValueByIdx (iCol p) i) as [[v1 [e1|]]|p1];
    cbn [obind fst snd]; try reflexivity.
  destruct (entity.ColumnVarChar_ValueByIdx (tCol p) i) as [[v2 [e2|]]|p2];
    cbn [obind fst snd]; try reflexivity.
  destruct (entity.ColumnVarChar_ValueByIdx (hCol p) i) as [[v3 [e3|]]|p3];
    cbn [obind fst snd]; try reflexivity.
  destruct (entity.ColumnVarChar_ValueByIdx (cCol p) i) as [[v4 [e4|]]|p4];
    cbn [obind fst snd]; try reflexivity.
  destruct (index (client.Scores r') i) as [score|p5]; cbn [obind];
    [apply IH | reflexivity].
Qed.

(** X15. When the fields of a result have pairwise distinct names, the
    order in which they arrive does not matter: on any rearrangement of the
    fields constructSimilaritiesFromResult gives the same outcome. *)
Theorem constructSimilarities_field_order (IntSize : Z) (count : Z)
    (fields fields' : list entity.Column) (scores : list float32) :
  NoDup (map entity.Column_Name fields) ->
  Permutation fields fields' ->
  constructSimilaritiesFromResult IntSize
    {| client.ResultCount := count; client.Fields := fields;
       client.Scores := scores |} =
  constructSimilaritiesFromResult IntSize
    {| client.ResultCount := count; client.Fields := fields';
       client.Scores := scores |}.
Proof.
  intros Hnd Hperm. unfold constructSimilaritiesFromResult.
  cbn [client.Fields client.ResultCount].
  rewrite (pickFields_Permutation fields fields' Hnd Hperm).
  by apply rowsLoop_scores.
Qed.

(** Witness of X15: the sample result with its columns reversed. *)
Lemma constructSimilarities_field_order_witness :
  constructSimilaritiesFromResult 64 sampleResult =
  constructSimilaritiesFromResult 64
    {| client.ResultCount := 2;
       client.Fields := rev (client.Fields sampleResult);
       client.Scores := client.Scores sampleResult |}.
Proof.
  apply (constructSimilarities_field_order 64 2 (client.Fields sampleResult)
           (rev (client.Fields sampleResult)) (client.Scores sampleResult)).
  - apply (bool_decide_unpack _). vm_compute. exact I.
  - apply Permutation_rev.
Defined.

Lemma pickField_ignored (p : ResultCols) (f : entity.Column) :
  (forall c, f = entity.OfInt64 c -> entity.i64_name c <> idCol) ->
  (forall c, f = entity.OfVarChar c ->
     entity.vc_name c <> titleCol /\ entity.vc_name c <> headingCol /\
     entity.vc_name c <> contentCol) ->
  pickField p f = p.
Proof.
  intros Hi Hv. unfold pickField. destruct f as [c|c|c]; cbn [entity.Column_Name].
  - specialize (Hi c eq_refl). apply String.eqb_neq in Hi. rewrite Hi.
    by repeat case_match.
  - destruct (Hv c eq_refl) as (H1 & H2 & H3).
    apply String.eqb_neq in H1, H2, H3. rewrite H1, H2, H3.
    by case_match.
  - by repeat case_match.
Qed.

(** X16. A field that is neither an int64 column named id nor a varchar
    column named title, heading or content is ignored: with or without it,
    wherever it stands among the fields, constructSimilaritiesFromResult
    gives the same outcome. *)
Theorem constructSimilarities_ignores_other_fields (IntSize : Z) (count : Z)
    (before after : list entity.Column) (f : entity.Column)
    (scores : list float32) :
  (forall c, f = entity.OfInt64 c -> entity.i64_name c <> "id") ->
  (forall c, f = entity.OfVarChar c ->
     entity.vc_name c <> "title" /\ entity.vc_name c <> "heading" /\
     entity.vc_name c <> "content") ->
  constructSimilaritiesFromResult IntSize
    {| client.ResultCount := count; client.Fields := before ++ f :: after;
       client.Scores := scores |} =
  constructSimilaritiesFromResult IntSize
    {| client.ResultCount := count; client.Fields := before ++ after;
       client.Scores := scores |}.
Proof.
  intros Hi Hv. unfold constructSimilaritiesFromResult.
  cbn [client.Fields client.ResultCount].
  replace (pickFields (before ++ f :: after)) with (pickFields (before ++ after)).
  { by apply rowsLoop_scores. }
  unfold pickFields. rewrite !fold_left_app. cbn [fold_left].
  by rewrite pickField_ignored.
Qed.

(** Witness of X16: the sample result with an embedding column in the
    middle. *)
Lemma constructSimilarities_ignores_other_fields_witness :
  constructSimilaritiesFromResult 64
    {| client.ResultCount := 2;
       client.Fields :=
         [ entity.NewColumnInt64 idCol [1; 0];
           entity.NewColumnVarChar titleCol ["Go"; "Go"] ] ++
         entity.NewColumnFloatVector embeddingCol 2 [] ::
         [ entity.NewColumnVarChar headingCol ["Maps"; "Slices"];
           entity.NewColumnVarChar contentCol
             ["A map is a hash table."; "A slice is a view of an array."] ];
       client.Scores := client.Scores sampleResult |} =
  constructSimilaritiesFromResult 64 sampleResult.
Proof.
  apply (constructSimilarities_ignores_other_fields 64 2
           [ entity.NewColumnInt64 idCol [1; 0];
             entity.NewColumnVarChar titleCol ["Go"; "Go"] ]
           [ entity.NewColumnVarChar headingCol ["Maps"; "Slices"];
             entity.NewColumnVarChar contentCol
               ["A map is a hash table."; "A slice is a view of an array."] ]
           (entity.NewColumnFloatVector embeddingCol 2 [])
           (client.Scores sampleResult)).
  - intros c Hc. discriminate Hc.
  - intros c Hc. discriminate Hc.
Defined.

(** ** Ids and the platform's int *)

Lemma wrap_range (bits x : Z) :
  0 < bits ->
  - 2 ^ (bits - 1) <= wrap bits x < 2 ^ (bits - 1) /\
  exists q, wrap bits x = x + q * 2 ^ bits.
Proof.
  intros Hb. unfold wrap.
  assert (H2 : 2 ^ bits = 2 * 2 ^ (bits - 1)).
  { replace bits with (Z.succ (bits - 1)) at 1 by lia.
    rewrite Z.pow_succ_r by lia. reflexivity. }
  assert (Hh : 0 < 2 ^ (bits - 1)) by (apply Z.pow_pos_nonneg; lia).
  pose proof (Z.mod_pos_bound x (2 ^ bits) ltac:(lia)) as Hm.
  pose proof (Z.div_mod x (2 ^ bits) ltac:(lia)) as Hd.
  destruct (Z.ltb_spec (x mod 2 ^ bits) (2 ^ (bits - 1))).
  - split; [lia|]. exists (- (x / 2 ^ bits)). lia.
  - split; [lia|]. exists (- (x / 2 ^ bits) - 1). lia.
Qed.

Lemma wrap_small (bits x : Z) :
  0 < bits -> - 2 ^ (bits - 1) <= x < 2 ^ (bits - 1) -> wrap bits x = x.
Proof.
  intros Hb Hx.
  destruct (wrap_range bits x Hb) as [Hr [q Hq]].
  assert (H2 : 2 ^ bits = 2 * 2 ^ (bits - 1)).
  { replace bits with (Z.succ (bits - 1)) at 1 by lia.
    rewrite Z.pow_succ_r by lia. reflexivity. }
  assert (q = 0) by nia. subst q. lia.
Qed.

(** X17. The conversion of an id to the platform's int keeps the value
    exactly when the id fits in that many bits (always, for an int64, on a
    64-bit platform); in every case the ID is the id reduced modulo 2 to
    the int size into the signed range. *)
Theorem int_of_int64_exact_iff (IntSize v : Z) :
  0 < IntSize ->
  (int_of_int64 IntSize v = v <->
   - 2 ^ (IntSize - 1) <= v < 2 ^ (IntSize - 1)) /\
  - 2 ^ (IntSize - 1) <= int_of_int64 IntSize v < 2 ^ (IntSize - 1) /\
  exists q, int_of_int64 IntSize v = v + q * 2 ^ IntSize.
Proof.
  intros Hb. unfold int_of_int64.
  destruct (wrap_range IntSize v Hb) as [Hr Hq].
  split; [|by split].
  split.
  - intros Heq. by rewrite <- Heq.
  - by apply wrap_small.
Qed.

(** Witness of X17: 2^31 does not fit a 32-bit int. *)
Lemma int_of_int64_exact_iff_witness :
  int_of_int64 32 5 = 5 /\ int_of_int64 32 (2 ^ 31) = - 2 ^ 31.
Proof.
  split.
  - apply (proj1 (int_of_int64_exact_iff 32 5 ltac:(lia))). simpl. lia.
  - reflexivity.
Defined.

(** ** From Insert to Query and back *)

Section RoundTrip.
Variable IntSize : Z.

Lemma insertColumns_readable (dim : Z) (sections : list gptbot.Section)
    (scores : list float32) :
  length scores = length sections ->
  readable
    {| client.ResultCount := Z.of_nat (length sections);
       client.Fields := insertColumns dim sections;
       client.Scores := scores |}
    {| entity.i64_name := idCol;
       entity.i64_values := imap (fun k _ => Z.of_nat k) sections |}
    {| entity.vc_name := titleCol;
       entity.vc_values := map gptbot.Title sections |}
    {| entity.vc_name := headingCol;
       entity.vc_values := map gptbot.Heading sections |}
    {| entity.vc_name := contentCol;
       entity.vc_values := map gptbot.Content sections |}.
Proof.
  intros Hs. unfold readable. rewrite insertColumns_spec.
  cbn [client.Fields client.ResultCount client.Scores
       entity.i64_values entity.vc_values].
  rewrite length_imap, !length_map, Hs.
  repeat split; reflexivity || lia.
Qed.

(** X18. Round trip of the text and the ids.  If the columns that Insert
    sends for a sequence of sections come back as the fields of a search
    result, one row per section with a score each, the reshaping returns,
    without error, one similarity per section in the same order: its Title,
    Heading and Content are the section's, its ID is the section's index,
    its Score the row's score, and its Embedding is empty.  This holds for a
    32-bit and for a 64-bit int, for fewer than 2^31 sections. *)
Theorem Insert_columns_round_trip (dim : Z) (sections : list gptbot.Section)
    (scores : list float32) :
  IntSize = 32 \/ IntSize = 64 ->
  Z.of_nat (length sections) < 2 ^ 31 ->
  length scores = length sections ->
  exists sims,
    constructSimilaritiesFromResult IntSize
      {| client.ResultCount := Z.of_nat (length sections);
         client.Fields := insertColumns dim sections;
         client.Scores := scores |} = Done (sims, None) /\
    length sims = length sections /\
    forall (i : nat) (s : gptbot.Section) (score : float32),
      sections !! i = Some s -> scores !! i = Some score ->
      sims !! i =
        Some {| gptbot.Section_ :=
                  {| gptbot.Title := gptbot.Title s;
                     gptbot.Heading := gptbot.Heading s;
                     gptbot.Content := gptbot.Content s;
                     gptbot.Embedding_ := [] |};
                gptbot.ID := Z.of_nat i;
                gptbot.Score := float64_of_float32 score |}.
Proof.
  intros Hbits Hn Hs.
  eexists. split.
  { apply constructSimilaritiesFromResult_ok. by apply insertColumns_readable. }
  cbn [client.ResultCount client.Scores]. rewrite Nat2Z.id.
  split; [by rewrite length_map, length_seq|].
  intros i s score Hsec Hsc.
  assert (Hi : (i < length sections)%nat) by (by eapply lookup_lt_Some).
  change (@map) with (@fmap list _).
  rewrite list_lookup_fmap, lookup_seq_lt by done. simpl.
  unfold similarityAt; cbn [entity.i64_values entity.vc_values].
  f_equal.
  rewrite (nth_lookup_Some _ i 0 (Z.of_nat i))
    by (by rewrite list_lookup_imap, Hsec).
  rewrite (nth_lookup_Some _ i "" (gptbot.Title s))
    by (by rewrite list_lookup_fmap, Hsec).
  rewrite (nth_lookup_Some _ i "" (gptbot.Heading s))
    by (by rewrite list_lookup_fmap, Hsec).
  rewrite (nth_lookup_Some _ i "" (gptbot.Content s))
    by (by rewrite list_lookup_fmap, Hsec).
  rewrite (nth_lookup_Some _ i _ score) by done.
  f_equal. unfold int_of_int64. apply wrap_small.
  - destruct Hbits as [-> | ->]; lia.
  - destruct Hbits as [-> | ->]; simpl in *; lia.
Qed.

End RoundTrip.

(** Witness of X18: the two sample sections on a 64-bit platform. *)
Lemma Insert_columns_round_trip_witness :
  exists sims,
    constructSimilaritiesFromResult 64
      {| client.ResultCount := 2;
         client.Fields := insertColumns 1536 sampleSections;
         client.Scores := [S754_zero false; S754_finite false 1 0] |}
      = Done (sims, None) /\
    length sims = 2%nat.
Proof.
  destruct (Insert_columns_round_trip 64 1536 sampleSections
              [S754_zero false; S754_finite false 1 0]
              (or_intror eq_refl) ltac:(simpl; lia) eq_refl)
    as (sims & Hrun & Hlen & _).
  exists sims. split; [exact Hrun | exact Hlen].
Defined.

(** ** LoadJSON from the file to the rows *)

Section LoadJSONTrace.
Context {E : Env}.

(** X19. When the file is read and parsed without error and the release
    and the index creation succeed, the calls of LoadJSON are exactly: the
    read of the file, the release, the index creation, and one bulk insert
    of the columns built from the parsed sections; LoadJSON returns what
    that insert answered. *)
Theorem LoadJSON_success_trace (w : World) (m : positive) (cl : client.Client)
    (c : Config) (filename : string) (data : list Byte.byte)
    (sections : list gptbot.Section) (idx : option entity.IndexIvfFlat) :
  receiver w m cl c ->
  on_ReadFile (log w) filename = (data, None) ->
  json_Unmarshal data = (sections, None) ->
  entity_NewIndexIvfFlat entity.L2 128 = (idx, None) ->
  let name := CollectionName c in
  let read := evReadFile (log w) filename in
  let ev1 := evReleaseCollection (log w ++ [read]) cl name in
  let ev2 := evCreateIndex (log w ++ [read; ev1]) cl name "embedding" idx false in
  let ev3 := evInsert (log w ++ [read; ev1; ev2]) cl name ""
               (insertColumns (Dim c) sections) in
  evErr ev1 = None ->
  evErr ev2 = None ->
  LoadJSON m filename w = (Done (evErr ev3), logged w [read; ev1; ev2; ev3]) /\
  map evCall [read; ev1; ev2; ev3] =
    [ ext.ReadFile filename;
      ext.ReleaseCollection cl name;
      ext.CreateIndex cl name "embedding" idx false;
      ext.Insert cl name "" (insertColumns (Dim c) sections) ].
Proof.
  intros Hr Hread Hparse Hivf name read ev1 ev2 ev3 H1 H2.
  split; [|reflexivity].
  subst name read ev1 ev2 ev3.
  unfold LoadJSON. rewrite bind_unfold, os_ReadFile_run, Hread, Hparse.
  rewrite (Insert_run _ m cl c sections (receiver_logged w m cl c _ Hr)).
  cbv zeta. rewrite Hivf. unfold embeddingCol.
  cbn [log logged]. rewrite <- !(app_assoc (log w)). cbn [app].
  rewrite H1, H2. by rewrite logged_logged.
Qed.

End LoadJSONTrace.

(** Witness of X19: the sample file on the quiet server. *)
Lemma LoadJSON_success_trace_witness :
  map evCall (log (snd (LoadJSON (E := quietEnv) 1 "sections.json" readyWorld))) =
    [ ext.ReadFile "sections.json";
      ext.ReleaseCollection 1%positive "docs";
      ext.CreateIndex 1%positive "docs" "embedding"
        (Some {| entity.nlist := 128; entity.metricType := entity.L2 |}) false;
      ext.Insert 1%positive "docs" "" (insertColumns 1536 sampleSections) ].
Proof.
  destruct (LoadJSON_success_trace (E := quietEnv) readyWorld 1 1%positive
              (afterInit bareConfig) "sections.json" [] sampleSections _
              readyWorld_receiver eq_refl eq_refl eq_refl eq_refl eq_refl)
    as [Hrun Hcalls].
  rewrite Hrun. exact Hcalls.
Defined.

(** ** What NewMilvus sends to the server *)

Section NewMilvusSends.
Context {E : Env}.

(** X20. NewMilvus never dials an empty address and never creates a
    collection of dimension 0: the address of its connection is the
    Config's Addr, or "localhost:19530" if that was empty, and the schema
    of a creation is the five-field schema for the Config's Dim, or for
    1536 if that was 0. *)
Theorem NewMilvus_sends_defaults (w : World) (cfg : positive) (c : Config) :
  configs w !! cfg = Some c ->
  exists evs : list Event,
    log (snd (NewMilvus cfg w)) = (log w ++ evs)%list /\
    forall ev, ev ∈ evs ->
      (forall addr, evCall ev = ext.NewGrpcClient addr ->
         addr <> "" /\
         addr = (if String.eqb (Addr c) "" then "localhost:19530" else Addr c)) /\
      (forall cl schema shards level,
         evCall ev = ext.CreateCollection cl schema shards level ->
         exists dim,
           dim <> 0 /\ dim = (if Dim c =? 0 then 1536 else Dim c) /\
           schema = schemaFor (CollectionName c) dim).
Proof.
  intros Hc. rewrite (NewMilvus_run w cfg c Hc). cbv zeta.
  pose proof (afterInit_set c) as [Ha Hd].
  assert (Hconn : forall addr,
            ext.NewGrpcClient (Addr (afterInit c)) = ext.NewGrpcClient addr ->
            addr <> "" /\
            addr = (if String.eqb (Addr c) "" then "localhost:19530" else Addr c)).
  { intros addr [= <-]. by split. }
  assert (Hcreate : forall cl cl' schema shards level,
            ext.CreateCollection cl
              (schemaFor (CollectionName c) (Dim (afterInit c))) 2 entity.ClBounded
            = ext.CreateCollection cl' schema shards level ->
            exists dim, dim <> 0 /\ dim = (if Dim c =? 0 then 1536 else Dim c) /\
                        schema = schemaFor (CollectionName c) dim).
  { intros cl cl' schema shards level [= _ <- _ _]. by eexists. }
  set (ev1 := evNewGrpcClient _ _).
  destruct (on_NewGrpcClient (log w) (Addr (afterInit c))) as [[cl|] [e|]].
  - eexists. split; [reflexivity|]. intros ev Hin. each_event Hin.
    split; [apply Hconn | discriminate].
  - set (ev2 := evReleaseCollection _ _ _).
    set (ev3 := evHasCollection _ _ _).
    destruct (on_HasCollection _ cl (CollectionName c)) as [[|] [e|]].
    1-3: eexists; (split; [reflexivity|]); intros ev Hin; each_event Hin;
         (split; [first [apply Hconn | discriminate] | discriminate]).
    set (ev4 := evCreateCollection _ _ _ _ _).
    destruct (evErr ev4).
    all: eexists; (split; [reflexivity|]); intros ev Hin; each_event Hin;
         (split; [first [apply Hconn | discriminate]
                 | first [apply Hcreate | discriminate]]).
  - eexists. split; [reflexivity|]. intros ev Hin. each_event Hin.
    split; [apply Hconn | discriminate].
  - eexists. split; [reflexivity|]. intros ev Hin. each_event Hin.
    split; [apply Hconn | discriminate].
Qed.

End NewMilvusSends.

(** Witness of X20: the bare Config. *)
Lemma NewMilvus_sends_defaults_witness :
  exists evs : list Event,
    log (snd (NewMilvus (E := quietEnv) 1 freshWorld))
      = (log freshWorld ++ evs)%list /\
    forall ev, ev ∈ evs ->
      forall addr, evCall ev = ext.NewGrpcClient addr -> addr <> "".
Proof.
  destruct (NewMilvus_sends_defaults (E := quietEnv) freshWorld 1 bareConfig
              (lookup_singleton_eq _ _)) as (evs & Hlog & Hall).
  exists evs. split; [exact Hlog|].
  intros ev Hin addr Hcall. exact (proj1 (proj1 (Hall ev Hin) addr Hcall)).
Defined.
